(** * scripts/add_skip_markers.py: the skip-marker injector

    A shallow embedding of the script and the properties of its one
    operation, [add_skip_marker], and of its driver, [main].

    Modelling choices.
    - A Python [str] is a sequence of Unicode code points: [list N].  The
      script slices by code point ([content[:insert_pos]]), and its marker
      carries a non-ASCII glyph, so bytes would be the wrong unit.
    - The file system is a finite map from paths to the text of each file, the
      value [Path.read_text] returns and [Path.write_text] takes; every path
      of the map is a readable text file.  The encoding is below this model.
      The newline translation of text mode is modelled apart, by
      [universal_newlines] and [add_skip_marker_on_disk], where the files are
      the characters as they are stored.
    - [print] appends its argument to the list [stdout] of the world.
    - [re.search] is modelled on the fragment of the regular-expression
      language the script's pattern can reach with ordinary test names:
      literal characters, escaped punctuation, the dot and a literal brace.
      A pattern outside the fragment makes the model answer [None]: the
      behaviour there (an [re.error], or a match by an operator that is not
      modelled) is left open, never guessed. *)

From Stdlib Require Import NArith String Ascii DecimalString.
From stdpp Require Import base option list gmap fin_maps.

Local Open Scope N_scope.

(** ** Text *)

Abbreviation str := (list N) (only parsing).

(** The code points of an ASCII literal. *)
Definition u (s : string) : str := map N_of_ascii (list_ascii_of_string s).

Definition NL : N := 10.
Definition TAB : N := 9.
Definition DQUOTE : N := 34.
Definition LBRACE : N := 123.
Definition BACKSLASH : N := 92.
Definition DOT : N := 46.
(** U+2705, the check mark of the marker text and of the status lines. *)
Definition CHECK_MARK : N := 9989.
(** U+274C, the cross of the failure status line. *)
Definition CROSS_MARK : N := 10060.
(** U+26A0 U+FE0F, the warning sign of the diagnostics. *)
Definition WARNING_SIGN : str := [9888; 65039].

(** [str(n)] for a non-negative count. *)
Definition str_of_nat (n : nat) : str := u (NilZero.string_of_uint (Nat.to_uint n)).

(** [s[:i] + x + s[i:]] *)
Definition splice (s : str) (i : nat) (x : str) : str := take i s ++ x ++ drop i s.

(** ** The fragment of [re] *)

Module Re.

Inductive atom :=
| Lit (c : N)
| AnyButNewline.

(** [SPECIAL_CHARS] of the parser, the characters with a meaning of their own. *)
Definition SPECIAL_CHARS : str := u ".\[{()*+?^$|".

Definition mem (c : N) (cs : str) : bool := existsb (N.eqb c) cs.

Definition is_digit (c : N) : bool := (48 <=? c) && (c <=? 57).
Definition is_ascii_letter (c : N) : bool :=
  ((65 <=? c) && (c <=? 90)) || ((97 <=? c) && (c <=? 122)).

Fixpoint skip_digits (p : str) : str :=
  match p with
  | c :: p' => if is_digit c then skip_digits p' else p
  | [] => []
  end.

(** What follows an opening brace decides whether it repeats the previous item
    ([{m}], [{m,n}], [{,n}], [{,}]) or stands for itself. *)
Definition brace_is_literal (rest : str) : bool :=
  match rest with
  | c :: _ =>
      if c =? 125 then true
      else
        let r1 := skip_digits rest in
        let r2 := match r1 with
                  | d :: r => if d =? 44 then skip_digits r else r1
                  | [] => r1
                  end in
        match r2 with
        | d :: _ => negb (d =? 125)
        | [] => true
        end
  | [] => true
  end.

(** The parser, restricted to the fragment: an escaped character that is no
    ASCII letter or digit is a literal; a character outside [SPECIAL_CHARS]
    (and other than [|] and [)], which end a subpattern) is a literal; the dot
    is any character but a newline; a brace that opens no repetition is a
    literal.  Everything else is outside the fragment. *)
Fixpoint parse (p : str) : option (list atom) :=
  match p with
  | [] => Some []
  | c :: rest =>
      if mem c (u "|)") then None
      else if c =? BACKSLASH then
        match rest with
        | d :: rest' =>
            if is_ascii_letter d || is_digit d then None
            else cons (Lit d) <$> parse rest'
        | [] => None
        end
      else if negb (mem c SPECIAL_CHARS) then cons (Lit c) <$> parse rest
      else if c =? DOT then cons AnyButNewline <$> parse rest
      else if c =? LBRACE then
        if brace_is_literal rest then cons (Lit c) <$> parse rest else None
      else None
  end.

Definition atom_matches (a : atom) (c : N) : bool :=
  match a with
  | Lit d => c =? d
  | AnyButNewline => negb (c =? NL)
  end.

(** The atoms match a prefix of the text. *)
Fixpoint match_here (p : list atom) (s : str) : bool :=
  match p, s with
  | [], _ => true
  | a :: p', c :: s' => atom_matches a c && match_here p' s'
  | _ :: _, [] => false
  end.

(** The leftmost position, counted from [i], at which the atoms match. *)
Fixpoint search_from (p : list atom) (s : str) (i : nat) : option nat :=
  if match_here p s then Some i
  else match s with
       | [] => None
       | _ :: s' => search_from p s' (S i)
       end.

(** A match object, reduced to its span. *)
Record span := Span { m_start : nat; m_end : nat }.

Inductive found :=
| Match (m : span)
| NoMatch.

(** [re.search(pattern, string)]; [None] outside the fragment. *)
Definition search (pattern s : str) : option found :=
  atoms ← parse pattern;
  Some match search_from atoms s 0 with
       | Some i => Match (Span i (i + length atoms))
       | None => NoMatch
       end.

End Re.

(** ** The world of the script *)

Record world := World {
  files : gmap str str;
  stdout : list str
}.

Definition print (line : str) (w : world) : world :=
  World (files w) (stdout w ++ [line]).

Definition write_text (path content : str) (w : world) : world :=
  World (<[path := content]> (files w)) (stdout w).

(** ** The script *)

(** [rf'func {test_name}\(t \*testing\.T\) {{'] *)
Definition pattern (test_name : str) : str :=
  u "func " ++ test_name ++ u "\(t \*testing\.T\) {".

(** [f'\n\tt.Skip("✅ CONVERTED TO HCL: {hcl_path}")\n'] *)
Definition skip_line (hcl_path : str) : str :=
  [NL; TAB] ++ u "t.Skip(" ++ [DQUOTE; CHECK_MARK] ++ u " CONVERTED TO HCL: "
    ++ hcl_path ++ [DQUOTE] ++ u ")" ++ [NL].

(** [f"⚠️  File not found: {filepath}"] *)
Definition file_not_found (filepath : str) : str :=
  WARNING_SIGN ++ u "  File not found: " ++ filepath.

(** [f"⚠️  Test function not found: {test_name} in {filepath}"] *)
Definition function_not_found (filepath test_name : str) : str :=
  WARNING_SIGN ++ u "  Test function not found: " ++ test_name ++ u " in " ++ filepath.

Definition add_skip_marker (filepath test_name hcl_path : str) (w : world)
  : option (bool * world) :=
  match files w !! filepath with
  | None =>
      Some (false, print (file_not_found filepath) w)
  | Some content =>
      r ← Re.search (pattern test_name) content;
      match r with
      | Re.NoMatch =>
          Some (false, print (function_not_found filepath test_name) w)
      | Re.Match m =>
          let insert_pos := Re.m_end m in
          let new_content := splice content insert_pos (skip_line hcl_path) in
          Some (true, write_text filepath new_content w)
      end
  end.

(** The two counters of [main]. *)
Record counters := Counters { success_count : nat; total_count : nat }.

(** The inner loop of [main], over the tests of one file. *)
Fixpoint for_tests (filepath : str) (tests : list (str * str)) (k : counters)
    (w : world) : option (counters * world) :=
  match tests with
  | [] => Some (k, w)
  | (test_name, hcl_path) :: tests' =>
      let total := S (total_count k) in
      '(ok, w1) ← add_skip_marker filepath test_name hcl_path w;
      if ok : bool then
        for_tests filepath tests' (Counters (S (success_count k)) total)
          (print (u "  " ++ [CHECK_MARK] ++ u " " ++ test_name) w1)
      else
        for_tests filepath tests' (Counters (success_count k) total)
          (print (u "  " ++ [CROSS_MARK] ++ u " " ++ test_name) w1)
  end.

(** The outer loop, over the items of the table in insertion order. *)
Fixpoint for_files (table : list (str * list (str * str))) (k : counters)
    (w : world) : option (counters * world) :=
  match table with
  | [] => Some (k, w)
  | (filepath, tests) :: table' =>
      '(k1, w1) ← for_tests filepath tests k
                    (print (u "Processing " ++ filepath ++ u ":") w);
      for_files table' k1 (print [] w1)
  end.

(** [main], with the module-level table as its argument. *)
Definition main_with (table : list (str * list (str * str))) (w : world)
  : option (Z * world) :=
  let w0 := print (u "Adding skip markers to converted Go integration tests..." ++ [NL]) w in
  '(k, w1) ← for_files table (Counters 0 0) w0;
  let w2 := print ([NL] ++ u "Summary: " ++ str_of_nat (success_count k) ++ u "/"
                     ++ str_of_nat (total_count k) ++ u " tests marked") w1 in
  if Nat.eqb (success_count k) (total_count k) then
    Some (0%Z, print ([CHECK_MARK] ++ u " All tests successfully marked!") w2)
  else
    Some (1%Z, print (WARNING_SIGN ++ u "  "
                        ++ str_of_nat (total_count k - success_count k)
                        ++ u " tests could not be marked") w2).

(** The module-level table, in the order of its items. *)
Definition CONVERTED_TESTS : list (str * list (str * str)) :=
  [
    (u "test/integration/jobs_test.go",
     [
       (u "TestPruneJobIntegration",
        u "test/tftest/jobs/prune_job.tftest.hcl");
       (u "TestPruneJobWithFilters",
        u "test/tftest/jobs/prune_job.tftest.hcl (merged)");
       (u "TestSyncJobIntegration",
        u "test/tftest/jobs/sync_job.tftest.hcl");
       (u "TestSyncJobWithGroupFilter",
        u "test/tftest/jobs/sync_job.tftest.hcl (merged)");
       (u "TestVerifyJobIntegration",
        u "test/tftest/jobs/verify_job.tftest.hcl")
     ]);
    (u "test/integration/remotes_test.go",
     [
       (u "TestRemotesIntegration",
        u "test/tftest/remotes/remote.tftest.hcl");
       (u "TestRemotePasswordUpdate",
        u "test/tftest/remotes/remote.tftest.hcl (merged)");
       (u "TestRemoteValidation",
        u "removed as redundant");
       (u "TestRemoteImport",
        u "covered by HCL tests")
     ]);
    (u "test/integration/datasources_test.go",
     [
       (u "TestDatastoreDataSourceIntegration",
        u "test/tftest/datasources/datastore.tftest.hcl");
       (u "TestSyncJobsDataSourceIntegration",
        u "test/tftest/datasources/sync_jobs.tftest.hcl");
       (u "TestVerifyJobDataSourceIntegration",
        u "test/tftest/datasources/verify_job.tftest.hcl");
       (u "TestVerifyJobsDataSourceIntegration",
        u "test/tftest/datasources/verify_jobs.tftest.hcl");
       (u "TestS3EndpointDataSourceIntegration",
        u "test/tftest/datasources/s3_endpoint.tftest.hcl");
       (u "TestS3EndpointsDataSourceIntegration",
        u "test/tftest/datasources/s3_endpoints.tftest.hcl");
       (u "TestMetricsServerDataSourceIntegration",
        u "test/tftest/datasources/metrics_server.tftest.hcl");
       (u "TestMetricsServersDataSourceIntegration",
        u "test/tftest/datasources/metrics_servers.tftest.hcl")
     ]);
    (u "test/integration/metrics_test.go",
     [
       (u "TestMetricsServerInfluxDBHTTPIntegration",
        u "test/tftest/metrics/influxdb_http.tftest.hcl");
       (u "TestMetricsServerInfluxDBUDPIntegration",
        u "test/tftest/metrics/influxdb_udp.tftest.hcl");
       (u "TestMetricsServerMTU",
        u "test/tftest/metrics/influxdb_udp.tftest.hcl (merged)");
       (u "TestMetricsServerDisabled",
        u "test/tftest/metrics/influxdb_udp.tftest.hcl (merged)");
       (u "TestMetricsServerTypeChange",
        u "covered by other tests")
     ]);
    (u "test/integration/notifications_test.go",
     [
       (u "TestSMTPNotificationIntegration",
        u "test/tftest/notifications/smtp.tftest.hcl");
       (u "TestGotifyNotificationIntegration",
        u "test/tftest/notifications/endpoints_and_matcher.tftest.hcl");
       (u "TestSendmailNotificationIntegration",
        u "test/tftest/notifications/endpoints_and_matcher.tftest.hcl");
       (u "TestWebhookNotificationIntegration",
        u "test/tftest/notifications/endpoints_and_matcher.tftest.hcl");
       (u "TestNotificationMatcherIntegration",
        u "test/tftest/notifications/endpoints_and_matcher.tftest.hcl");
       (u "TestNotificationMatcherModes",
        u "test/tftest/notifications/endpoints_and_matcher.tftest.hcl (merged)");
       (u "TestNotificationMatcherWithCalendar",
        u "test/tftest/notifications/endpoints_and_matcher.tftest.hcl (merged)");
       (u "TestNotificationMatcherInvertMatch",
        u "test/tftest/notifications/endpoints_and_matcher.tftest.hcl (merged)");
       (u "TestNotificationEndpointDataSourceIntegration",
        u "test/tftest/datasources/notification_endpoint.tftest.hcl");
       (u "TestNotificationEndpointsDataSourceIntegration",
        u "test/tftest/datasources/notification_endpoints.tftest.hcl");
       (u "TestNotificationMatcherDataSourceIntegration",
        u "test/tftest/datasources/notification_matcher.tftest.hcl");
       (u "TestNotificationMatchersDataSourceIntegration",
        u "test/tftest/datasources/notification_matchers.tftest.hcl")
     ])
  ].

Definition main : world -> option (Z * world) := main_with CONVERTED_TESTS.

(** ** The files as they are stored

    [Path.read_text] and [Path.write_text] open the file in text mode with
    [newline=None].  Reading turns a CR LF and a lone CR of the stored file
    into LF; writing turns LF into [os.linesep], which is LF on a POSIX
    system. *)

Definition CR : N := 13.

(** The text that reading gives for the stored characters. *)
Fixpoint universal_newlines (raw : str) : str :=
  match raw with
  | [] => []
  | c :: rest =>
      if c =? CR then
        match rest with
        | d :: rest' =>
            if d =? NL then NL :: universal_newlines rest'
            else NL :: universal_newlines rest
        | [] => [NL]
        end
      else c :: universal_newlines rest
  end.

(** [add_skip_marker] on a POSIX system, the files of the world being the
    stored characters: [read_text] translates the line ends, [write_text]
    stores the new text as it is. *)
Definition add_skip_marker_on_disk (filepath test_name hcl_path : str) (w : world)
  : option (bool * world) :=
  match files w !! filepath with
  | None => Some (false, print (file_not_found filepath) w)
  | Some raw =>
      let content := universal_newlines raw in
      r ← Re.search (pattern test_name) content;
      match r with
      | Re.NoMatch =>
          Some (false, print (function_not_found filepath test_name) w)
      | Re.Match m =>
          let insert_pos := Re.m_end m in
          let new_content := splice content insert_pos (skip_line hcl_path) in
          Some (true, write_text filepath new_content w)
      end
  end.

Local Close Scope N_scope.

(** ** Vocabulary of the properties *)

(** The one-line opening of a test function, as it stands in a Go file. *)
Definition signature (test_name : str) : str :=
  u "func " ++ test_name ++ u "(t *testing.T) {".

(** The line the script adds, without the newlines around it. *)
Definition marker_line (hcl_path : str) : str :=
  [TAB] ++ u "t.Skip(" ++ [DQUOTE; CHECK_MARK] ++ u " CONVERTED TO HCL: "
    ++ hcl_path ++ [DQUOTE] ++ u ")".

(** The fixed text every marker line starts with. *)
Definition marker_text : str :=
  [TAB] ++ u "t.Skip(" ++ [DQUOTE; CHECK_MARK] ++ u " CONVERTED TO HCL: ".

Fixpoint is_prefix (q s : str) : bool :=
  match q, s with
  | [], _ => true
  | a :: q', c :: s' => N.eqb c a && is_prefix q' s'
  | _ :: _, [] => false
  end.

(** The offsets at which [q] occurs in [s], counted from [i], in order. *)
Fixpoint occurrences_from (q s : str) (i : nat) : list nat :=
  (if is_prefix q s then [i] else [])
    ++ match s with
       | [] => []
       | _ :: s' => occurrences_from q s' (S i)
       end.

Definition occurrences (q s : str) : list nat := occurrences_from q s 0.

(** The number of occurrences of [q] in [s]. *)
Fixpoint count_sub (q s : str) : nat :=
  (if is_prefix q s then 1 else 0)
    + match s with
      | [] => 0
      | _ :: s' => count_sub q s'
      end.

Definition contains (q s : str) : Prop := ∃ a b, s = a ++ q ++ b.

(** A character that stands for itself in a pattern. *)
Definition inert_char (c : N) : bool :=
  negb (Re.mem c Re.SPECIAL_CHARS) && negb (Re.mem c (u "|)")) && negb (N.eqb c BACKSLASH).

(** A name free of the characters that mean something in a pattern; every Go
    identifier is one. *)
Definition regex_inert (name : str) : bool := forallb inert_char name.

(** The letters, digits and underscore of an identifier. *)
Definition ident_char (c : N) : bool :=
  Re.is_ascii_letter c || Re.is_digit c || N.eqb c 95.

Definition is_identifier (name : str) : bool := forallb ident_char name.

(** The file holds a function whose opening line is the signature of the name. *)
Definition present (fs : gmap str str) (filepath test_name : str) : bool :=
  match fs !! filepath with
  | Some content => Nat.ltb 0 (count_sub (signature test_name) content)
  | None => false
  end.

(** The pairs of the table whose signature is in its file. *)
Fixpoint matching_tests (fs : gmap str str) (filepath : str)
    (tests : list (str * str)) : nat :=
  match tests with
  | [] => 0
  | (test_name, _) :: tests' =>
      (if present fs filepath test_name then 1 else 0)
        + matching_tests fs filepath tests'
  end.

Fixpoint matching_pairs (table : list (str * list (str * str)))
    (fs : gmap str str) : nat :=
  match table with
  | [] => 0
  | (filepath, tests) :: table' =>
      matching_tests fs filepath tests + matching_pairs table' fs
  end.

Fixpoint total_pairs (table : list (str * list (str * str))) : nat :=
  match table with
  | [] => 0
  | (_, tests) :: table' => length tests + total_pairs table'
  end.

(** The marker texts in all the files. *)
Definition markers (fs : gmap str str) : nat :=
  map_fold (λ _ content n, count_sub marker_text content + n) 0 fs.

(** A table whose names are identifiers and whose labels hold neither an
    opening brace nor the check mark. *)
Definition plain_label (hcl_path : str) : bool :=
  forallb (λ c, negb (N.eqb c LBRACE) && negb (N.eqb c CHECK_MARK)) hcl_path.

Definition plain_table (table : list (str * list (str * str))) : bool :=
  forallb (λ '(_, tests),
             forallb (λ '(test_name, hcl_path),
                        is_identifier test_name && plain_label hcl_path) tests)
          table.

(** A table whose names hold no character with a meaning in a pattern. *)
Definition inert_table (table : list (str * list (str * str))) : bool :=
  forallb (λ '(_, tests), forallb (λ '(test_name, _), regex_inert test_name) tests)
          table.

(** The two file systems hold the same signatures of identifiers. *)
Definition same_signatures (fs fs' : gmap str str) : Prop :=
  ∀ filepath test_name,
    is_identifier test_name = true →
    present fs' filepath test_name = present fs filepath test_name.

(** The (file, test name) pairs of a table, in the order of the run. *)
Fixpoint pairs_of (table : list (str * list (str * str))) : list (str * str) :=
  match table with
  | [] => []
  | (filepath, tests) :: table' =>
      map (λ '(test_name, _), (filepath, test_name)) tests ++ pairs_of table'
  end.

(** The signature of the name, with its skip line right after it, is in the
    file. *)
Definition marked (fs : gmap str str) (filepath test_name hcl_path : str) : Prop :=
  ∃ content, fs !! filepath = Some content
             ∧ contains (signature test_name ++ skip_line hcl_path) content.

(** The newlines in a text. *)
Fixpoint newlines (s : str) : nat :=
  match s with
  | [] => 0
  | c :: s' => (if N.eqb c NL then 1 else 0) + newlines s'
  end.

(** The lines on the terminal for the arguments of the calls of [print]: a
    call ends its text with a newline, after the newlines of the text. *)
Fixpoint printed_lines (out : list str) : nat :=
  match out with
  | [] => 0
  | s :: out' => S (newlines s) + printed_lines out'
  end.

(** A table whose paths and names hold no newline. *)
Definition newline_free (s : str) : bool := forallb (λ c, negb (N.eqb c NL)) s.

Definition one_line_table (table : list (str * list (str * str))) : bool :=
  forallb (λ '(filepath, tests),
             newline_free filepath
             && forallb (λ '(test_name, _), newline_free test_name) tests)
          table.

(** The offsets at which the atoms match in [s], counted from [i], in order. *)
Fixpoint match_offsets_from (p : list Re.atom) (s : str) (i : nat) : list nat :=
  (if Re.match_here p s then [i] else [])
    ++ match s with
       | [] => []
       | _ :: s' => match_offsets_from p s' (S i)
       end.

Definition match_offsets (p : list Re.atom) (s : str) : list nat :=
  match_offsets_from p s 0.

(** The lines of a text: what lies between its newlines. *)
Fixpoint split_lines (s : str) : list str :=
  match s with
  | [] => [[]]
  | c :: s' =>
      if N.eqb c NL then [] :: split_lines s'
      else match split_lines s' with
           | l :: ls => (c :: l) :: ls
           | [] => [[c]]
           end
  end.

(** ** Sample inputs *)

Module Samples.

Definition jobs_test_go : str := u "test/integration/jobs_test.go".

(** A Go file with one test function. *)
Definition one_test : str :=
  u "package integration" ++ [NL; NL]
    ++ u "func TestPruneJobIntegration(t *testing.T) {" ++ [NL; TAB]
    ++ u "runPrune(t)" ++ [NL] ++ u "}" ++ [NL].

Definition one_test_world : world := World {[ jobs_test_go := one_test ]} [].

(** The same test function in a file stored with CR LF line ends. *)
Definition crlf_test : str :=
  u "func TestPruneJobIntegration(t *testing.T) {" ++ [CR; NL; TAB]
    ++ u "runPrune(t)" ++ [CR; NL] ++ u "}" ++ [CR; NL].

Definition crlf_world : world := World {[ jobs_test_go := crlf_test ]} [].

(** A name with a dot, and a file with another function the dot lets in. *)
Definition dotted_name : str := u "Test.A".
Definition dotted_file : str := u "func TestXA(t *testing.T) {" ++ [NL] ++ u "}" ++ [NL].

Definition empty_world : world := World {[ jobs_test_go := [] ]} [].

(** The opening line of a function, twice in one text. *)
Definition twice : str :=
  u "func TestDup(t *testing.T) {" ++ [NL] ++ u "}" ++ [NL]
    ++ u "// func TestDup(t *testing.T) {" ++ [NL].

Definition twice_world : world := World {[ jobs_test_go := twice ]} [].

Definition remotes_test_go : str := u "test/integration/remotes_test.go".

(** A Go file with three of the test functions of the table. *)
Definition three_tests : str :=
  u "func TestPruneJobIntegration(t *testing.T) {" ++ [NL] ++ u "}" ++ [NL]
    ++ u "func TestSyncJobIntegration(t *testing.T) {" ++ [NL] ++ u "}" ++ [NL]
    ++ u "func TestVerifyJobIntegration(t *testing.T) {" ++ [NL] ++ u "}" ++ [NL].

Definition three_tests_world : world := World {[ jobs_test_go := three_tests ]} [].

End Samples.

(** The newlines of the texts that are written out. *)
Ltac eval_newlines_in H :=
  repeat match type of H with
         | context [newlines ?x] =>
             let v := eval vm_compute in (newlines x) in
             progress change (newlines x) with v in H
         end.

Ltac eval_newlines :=
  repeat match goal with
         | |- context [newlines ?x] =>
             let v := eval vm_compute in (newlines x) in
             progress change (newlines x) with v
         end.

(** A character is not in a text that is written out. *)
Ltac not_in_literal :=
  let H := fresh in
  intros H; vm_compute in H;
  repeat (apply elem_of_cons in H as [H|H]; [discriminate|]);
  by apply elem_of_nil in H.

(** ** Prefixes and occurrences *)

Section Text.

Implicit Types (q s a b : str) (c : N) (i j k : nat).

Lemma is_prefix_spec q s : is_prefix q s = true ↔ ∃ b, s = q ++ b.
Proof.
  revert s; induction q as [|x q IH]; intros [|c s]; simpl.
  - split; eauto.
  - split; eauto.
  - split; [discriminate | intros [b Hb]; discriminate].
  - rewrite andb_true_iff, N.eqb_eq, IH. split.
    + intros [-> [b ->]]. eauto.
    + intros [b Hb]. injection Hb as -> ->. eauto.
Qed.

Lemma is_prefix_app q b : is_prefix q (q ++ b) = true.
Proof. apply is_prefix_spec; eauto. Qed.

Lemma is_prefix_length q s : is_prefix q s = true → length q ≤ length s.
Proof.
  intros [b ->]%is_prefix_spec. rewrite length_app. lia.
Qed.

(** Only the first [length q] characters of the text decide. *)
Lemma is_prefix_app_l q a b :
  length q ≤ length a → is_prefix q (a ++ b) = is_prefix q a.
Proof.
  revert a; induction q as [|x q IH]; intros [|c a] Hl; simpl in *;
    try reflexivity; try lia.
  rewrite IH by lia. reflexivity.
Qed.

Lemma count_sub_length q s i : length (occurrences_from q s i) = count_sub q s.
Proof.
  revert i; induction s as [|c s IH]; intros i; simpl.
  - destruct (is_prefix q []); reflexivity.
  - rewrite length_app, IH. destruct (is_prefix q (c :: s)); reflexivity.
Qed.

Lemma elem_of_occurrences_from q s k i :
  i ∈ occurrences_from q s k ↔ ∃ a b, s = a ++ q ++ b ∧ i = k + length a.
Proof.
  revert k; induction s as [|c s IH]; intros k; simpl.
  - rewrite app_nil_r. split.
    + destruct (is_prefix q []) eqn:E; [|by intros ?%elem_of_nil].
      apply is_prefix_spec in E as [b E].
      intros ->%list_elem_of_singleton. exists [], b. simpl. split; [done | lia].
    + intros (a & b & E & ->). symmetry in E.
      apply app_eq_nil in E as [-> E]. simpl.
      replace (is_prefix q []) with true.
      * rewrite Nat.add_0_r. by apply list_elem_of_singleton.
      * symmetry. apply is_prefix_spec. eauto.
  - rewrite elem_of_app, IH. split.
    + intros [H | (a & b & -> & ->)].
      * destruct (is_prefix q (c :: s)) eqn:E; [|by apply elem_of_nil in H].
        apply is_prefix_spec in E as [b E].
        apply list_elem_of_singleton in H as ->.
        exists [], b. simpl. split; [done | lia].
      * exists (c :: a), b. simpl. split; [done | lia].
    + intros ([|x a] & b & E & ->).
      * left. simpl in E. replace (is_prefix q (c :: s)) with true.
        -- rewrite Nat.add_0_r. by apply list_elem_of_singleton.
        -- symmetry. apply is_prefix_spec. eauto.
      * right. simpl in E. injection E as -> ->.
        exists a, b. simpl. split; [done | lia].
Qed.

Lemma elem_of_occurrences q s i :
  i ∈ occurrences q s ↔ ∃ a b, s = a ++ q ++ b ∧ i = length a.
Proof. unfold occurrences. by rewrite elem_of_occurrences_from. Qed.

(** The offsets come in increasing order. *)
Lemma occurrences_from_lb q s k : Forall (λ j, k ≤ j) (occurrences_from q s k).
Proof.
  apply Forall_forall. intros j (a & b & _ & ->)%elem_of_occurrences_from. lia.
Qed.

Lemma occurrences_from_cons q s k i rest :
  occurrences_from q s k = i :: rest → Forall (λ j, i < j) rest.
Proof.
  revert k; induction s as [|c s IH]; intros k; simpl.
  - rewrite app_nil_r. destruct (is_prefix q []); [|discriminate].
    intros [= <- <-]. constructor.
  - destruct (is_prefix q (c :: s)); simpl.
    + intros [= <- <-]. eapply Forall_impl; [apply occurrences_from_lb|].
      simpl. lia.
    + apply IH.
Qed.

End Text.

(** ** The matcher *)

Section Matcher.

Implicit Types (p : list Re.atom) (q s a b y : str) (c : N) (i j k : nat).

Lemma match_here_lit q s : Re.match_here (map Re.Lit q) s = is_prefix q s.
Proof.
  revert s; induction q as [|x q IH]; intros [|c s]; simpl; try reflexivity.
  by rewrite IH.
Qed.

Lemma match_here_length p s : Re.match_here p s = true → length p ≤ length s.
Proof.
  revert s; induction p as [|x p IH]; intros [|c s]; simpl; try lia; try discriminate.
  intros [_ H]%andb_true_iff. apply IH in H. lia.
Qed.



Lemma search_from_lit q s k :
  Re.search_from (map Re.Lit q) s k = head (occurrences_from q s k).
Proof.
  revert k; induction s as [|c s IH]; intros k; simpl;
    rewrite match_here_lit.
  - destruct (is_prefix q []); reflexivity.
  - destruct (is_prefix q (c :: s)); simpl; [reflexivity | apply IH].
Qed.

Lemma search_from_Some p s k j :
  Re.search_from p s k = Some j →
  k ≤ j ∧ j - k + length p ≤ length s
  ∧ Re.match_here p (drop (j - k) s) = true.
Proof.
  revert k; induction s as [|c s IH]; intros k; simpl.
  - destruct (Re.match_here p []) eqn:E; [|discriminate].
    intros [= <-]. apply match_here_length in E. simpl in E.
    rewrite Nat.sub_diag. simpl. repeat split; try lia.
    destruct p; [done | simpl in E; lia].
  - destruct (Re.match_here p (c :: s)) eqn:E.
    + intros [= <-]. rewrite Nat.sub_diag. simpl.
      apply match_here_length in E as E'. simpl in E'. repeat split; try lia. done.
    + intros (Hk & Hl & Hm)%IH.
      replace (j - k) with (S (j - S k)) by lia. simpl.
      repeat split; try lia. done.
Qed.



Lemma parse_cons_inert c rest :
  inert_char c = true →
  Re.parse (c :: rest) = cons (Re.Lit c) <$> Re.parse rest.
Proof.
  unfold inert_char. intros [[H1 H2]%andb_true_iff H3]%andb_true_iff.
  apply negb_true_iff in H1, H2, H3.
  cbn [Re.parse]. by rewrite H2, H3, H1.
Qed.

Lemma parse_app_inert a b :
  forallb inert_char a = true →
  Re.parse (a ++ b) = app (map Re.Lit a) <$> Re.parse b.
Proof.
  induction a as [|c a IH]; cbn [app forallb map].
  - intros _. by destruct (Re.parse b).
  - intros [Hc Ha]%andb_true_iff.
    rewrite parse_cons_inert, IH by done. by destruct (Re.parse b).
Qed.

(** The pattern of an inert name is its signature, read literally. *)
Lemma parse_pattern_inert name :
  regex_inert name = true →
  Re.parse (pattern name) = Some (map Re.Lit (signature name)).
Proof.
  intros Hn. unfold pattern, signature.
  rewrite (assoc_L app), parse_app_inert.
  - rewrite (assoc_L app (u "func ")), (map_app _ (_ ++ _)). reflexivity.
  - rewrite forallb_app. apply andb_true_iff. split; [reflexivity | exact Hn].
Qed.

Lemma search_inert name s :
  regex_inert name = true →
  Re.search (pattern name) s
  = Some match head (occurrences (signature name) s) with
         | Some i => Re.Match (Re.Span i (i + length (signature name)))
         | None => Re.NoMatch
         end.
Proof.
  intros Hn. unfold Re.search. rewrite parse_pattern_inert by done.
  cbn [mbind option_bind].
  rewrite search_from_lit, length_map. reflexivity.
Qed.

Lemma ident_char_inert c : ident_char c = true → inert_char c = true.
Proof.
  unfold ident_char, inert_char, Re.is_ascii_letter, Re.is_digit.
  let sp := eval vm_compute in Re.SPECIAL_CHARS in change Re.SPECIAL_CHARS with sp.
  let sp := eval vm_compute in (u "|)") in change (u "|)") with sp.
  unfold BACKSLASH. cbn [Re.mem existsb].
  rewrite !orb_true_iff, !andb_true_iff, !negb_true_iff, !orb_false_iff,
    !N.leb_le, !N.eqb_eq, !N.eqb_neq.
  intros H. repeat split; try done; lia.
Qed.

Lemma is_identifier_inert name : is_identifier name = true → regex_inert name = true.
Proof.
  unfold is_identifier, regex_inert. rewrite !forallb_forall.
  intros H c Hc. apply ident_char_inert, H, Hc.
Qed.

End Matcher.

(** ** One call of [add_skip_marker] *)

Section Injector.

Implicit Types (w : world) (filepath test_name hcl_path content : str).

Lemma add_skip_marker_missing w filepath test_name hcl_path :
  files w !! filepath = None →
  add_skip_marker filepath test_name hcl_path w
  = Some (false, print (file_not_found filepath) w).
Proof. intros H. unfold add_skip_marker. by rewrite H. Qed.

Lemma add_skip_marker_no_match w filepath test_name hcl_path content :
  files w !! filepath = Some content →
  Re.search (pattern test_name) content = Some Re.NoMatch →
  add_skip_marker filepath test_name hcl_path w
  = Some (false, print (function_not_found filepath test_name) w).
Proof. intros H Hs. unfold add_skip_marker. by rewrite H, Hs. Qed.

Lemma add_skip_marker_match w filepath test_name hcl_path content m :
  files w !! filepath = Some content →
  Re.search (pattern test_name) content = Some (Re.Match m) →
  add_skip_marker filepath test_name hcl_path w
  = Some (true, write_text filepath
                  (splice content (Re.m_end m) (skip_line hcl_path)) w).
Proof. intros H Hs. unfold add_skip_marker. by rewrite H, Hs. Qed.

Lemma add_skip_marker_true w filepath test_name hcl_path w' :
  add_skip_marker filepath test_name hcl_path w = Some (true, w') →
  ∃ content m,
    files w !! filepath = Some content
    ∧ Re.search (pattern test_name) content = Some (Re.Match m)
    ∧ w' = write_text filepath (splice content (Re.m_end m) (skip_line hcl_path)) w.
Proof.
  unfold add_skip_marker.
  destruct (files w !! filepath) as [content|]; [|discriminate].
  destruct (Re.search (pattern test_name) content) as [[m|]|] eqn:Hs;
    cbn [mbind option_bind]; try discriminate.
  intros [= <-]. eauto.
Qed.

(** For an inert name the call is decided by the occurrences of the signature. *)
Lemma add_skip_marker_inert w filepath test_name hcl_path content :
  regex_inert test_name = true →
  files w !! filepath = Some content →
  add_skip_marker filepath test_name hcl_path w
  = Some match head (occurrences (signature test_name) content) with
         | Some i =>
             (true, write_text filepath
                      (splice content (i + length (signature test_name))
                         (skip_line hcl_path)) w)
         | None => (false, print (function_not_found filepath test_name) w)
         end.
Proof.
  intros Hn Hf. unfold add_skip_marker. rewrite Hf, search_inert by done.
  cbn [mbind option_bind].
  by destruct (head (occurrences (signature test_name) content)).
Qed.

Lemma splice_at content a b x :
  content = a ++ b → splice content (length a) x = a ++ x ++ b.
Proof.
  intros ->. unfold splice. by rewrite take_app_length, drop_app_length.
Qed.

Lemma skip_line_marker_line hcl_path :
  skip_line hcl_path = [NL] ++ marker_line hcl_path ++ [NL].
Proof.
  unfold skip_line, marker_line. rewrite <- !app_assoc. reflexivity.
Qed.

End Injector.

(** ** Occurrences of the signature and the search *)

Section Literal.

Implicit Types (q s a b : str) (i : nat).

Lemma contains_count q s : contains q s ↔ 0 < count_sub q s.
Proof.
  rewrite <- (count_sub_length q s 0). split.
  - intros (a & b & E).
    assert (length a ∈ occurrences q s) as Hin by (apply elem_of_occurrences; eauto).
    unfold occurrences in Hin. destruct (occurrences_from q s 0); simpl; [|lia].
    by apply elem_of_nil in Hin.
  - destruct (occurrences_from q s 0) as [|i l] eqn:E; simpl; [lia|]. intros _.
    assert (i ∈ occurrences q s) as Hin by (unfold occurrences; rewrite E; left).
    apply elem_of_occurrences in Hin as (a & b & ? & _). by exists a, b.
Qed.

Lemma head_occurrences_None q s :
  head (occurrences q s) = None ↔ ¬ contains q s.
Proof.
  rewrite contains_count, <- (count_sub_length q s 0). unfold occurrences.
  destruct (occurrences_from q s 0); simpl; split; try done; lia.
Qed.

Lemma head_occurrences_Some q s i :
  head (occurrences q s) = Some i →
  ∃ a b, s = a ++ q ++ b ∧ i = length a.
Proof.
  intros H. apply elem_of_occurrences.
  destruct (occurrences q s); [discriminate|]. injection H as ->. left.
Qed.

(** One occurrence: one way to cut the text around it. *)
Lemma count_sub_one q s :
  count_sub q s = 1 →
  ∃ a b, s = a ++ q ++ b
         ∧ occurrences q s = [length a]
         ∧ ∀ a' b', s = a' ++ q ++ b' → a' = a ∧ b' = b.
Proof.
  rewrite <- (count_sub_length q s 0). fold (occurrences q s). intros Hl.
  destruct (occurrences q s) as [|i [|]] eqn:E; try discriminate.
  assert (i ∈ occurrences q s) as (a & b & Hs & ->)%elem_of_occurrences
    by (rewrite E; left).
  exists a, b. repeat split; try done.
  - assert (length a' ∈ occurrences q s) as Hin
      by (apply elem_of_occurrences; eauto).
    rewrite E in Hin. apply list_elem_of_singleton in Hin.
    rewrite Hs in H. by apply app_inj_1 in H as [? _].
  - assert (length a' ∈ occurrences q s) as Hin
      by (apply elem_of_occurrences; eauto).
    rewrite E in Hin. apply list_elem_of_singleton in Hin.
    rewrite Hs in H. apply app_inj_1 in H as [_ H]; [|done].
    by apply app_inv_head in H.
Qed.

Lemma search_empty test_name :
  is_Some (Re.parse (pattern test_name)) →
  Re.search (pattern test_name) [] = Some Re.NoMatch.
Proof.
  intros [atoms Ha]. unfold Re.search. rewrite Ha. cbn [mbind option_bind].
  unfold pattern in Ha. change (u "func " ++ ?x) with (102%N :: (u "unc " ++ x)) in Ha.
  rewrite parse_cons_inert in Ha by reflexivity.
  destruct (Re.parse _); [|discriminate]. injection Ha as <-. reflexivity.
Qed.

End Literal.

(** ** The properties of one call *)

Lemma universal_newlines_id (raw : str) :
  CR ∉ raw → universal_newlines raw = raw.
Proof.
  induction raw as [|c raw IH]; [done|].
  intros [Hc Hraw]%not_elem_of_cons. cbn [universal_newlines].
  apply not_eq_sym, N.eqb_neq in Hc. rewrite Hc. by rewrite IH.
Qed.

(** Where no stored file holds a CR, the stored characters are the text, and
    the call on the stored files is the call on the texts. *)
Lemma add_skip_marker_on_disk_text (w : world) (filepath test_name hcl_path : str) :
  (∀ path raw, files w !! path = Some raw → CR ∉ raw) →
  add_skip_marker_on_disk filepath test_name hcl_path w
  = add_skip_marker filepath test_name hcl_path w.
Proof.
  intros Hcr. unfold add_skip_marker_on_disk, add_skip_marker.
  destruct (files w !! filepath) as [raw|] eqn:Hf; [|done].
  cbn zeta. by rewrite (universal_newlines_id raw) by by eapply Hcr.
Qed.

(** C1 (as amended).  When the file exists and its text, as [read_text] gives
    it, holds the signature [func <name>(t *testing.T) {] of the test
    identifier exactly once, the call reports success, and the file then holds
    that text with one marker line, between two newlines, put in right after
    the opening brace of the signature; the marker line holds the label as it
    is, and every character of the text before and after the cut is kept.
    The text is the stored file with each CR LF and lone CR read as LF, so a
    file without CR is kept character for character. *)
Theorem add_skip_marker_splices_one_marker
    (w : world) (filepath test_name hcl_path raw : str) :
  regex_inert test_name = true →
  files w !! filepath = Some raw →
  count_sub (signature test_name) (universal_newlines raw) = 1 →
  ∃ before after w',
    universal_newlines raw = before ++ signature test_name ++ after
    ∧ (∀ a b, universal_newlines raw = a ++ signature test_name ++ b →
              a = before ∧ b = after)
    ∧ add_skip_marker_on_disk filepath test_name hcl_path w = Some (true, w')
    ∧ files w'
      = <[filepath := before ++ signature test_name
                        ++ [NL] ++ marker_line hcl_path ++ [NL] ++ after]> (files w)
    ∧ stdout w' = stdout w
    ∧ marker_line hcl_path = marker_text ++ hcl_path ++ [DQUOTE] ++ u ")"
    ∧ (CR ∉ raw → universal_newlines raw = raw).
Proof.
  intros Hn Hf (before & after & Hc & Hocc & Huniq)%count_sub_one.
  exists before, after,
    (write_text filepath
       (before ++ signature test_name
          ++ [NL] ++ marker_line hcl_path ++ [NL] ++ after) w).
  split; [done|]. split; [exact Huniq|]. split; [|split; [done|split; [done|split]]].
  - unfold add_skip_marker_on_disk. rewrite Hf.
    cbn zeta. rewrite search_inert, Hocc by done.
    cbn [head mbind option_bind Re.m_end]. do 3 f_equal.
    rewrite <- length_app,
      (splice_at _ (before ++ signature test_name) after)
      by (by rewrite <- app_assoc).
    by rewrite skip_line_marker_line, <- !app_assoc.
  - unfold marker_line, marker_text. by rewrite <- !app_assoc.
  - apply universal_newlines_id.
Qed.

Lemma add_skip_marker_splices_one_marker_witness :
  ∃ before after w',
    universal_newlines Samples.crlf_test
    = before ++ signature (u "TestPruneJobIntegration") ++ after
    ∧ (∀ a b, universal_newlines Samples.crlf_test
              = a ++ signature (u "TestPruneJobIntegration") ++ b →
              a = before ∧ b = after)
    ∧ add_skip_marker_on_disk Samples.jobs_test_go (u "TestPruneJobIntegration")
        (u "test/tftest/jobs/prune_job.tftest.hcl") Samples.crlf_world
      = Some (true, w')
    ∧ files w'
      = <[Samples.jobs_test_go :=
            before ++ signature (u "TestPruneJobIntegration")
              ++ [NL] ++ marker_line (u "test/tftest/jobs/prune_job.tftest.hcl")
              ++ [NL] ++ after]> (files Samples.crlf_world)
    ∧ stdout w' = stdout Samples.crlf_world
    ∧ marker_line (u "test/tftest/jobs/prune_job.tftest.hcl")
      = marker_text ++ u "test/tftest/jobs/prune_job.tftest.hcl" ++ [DQUOTE] ++ u ")"
    ∧ (CR ∉ Samples.crlf_test → universal_newlines Samples.crlf_test = Samples.crlf_test).
Proof.
  apply (add_skip_marker_splices_one_marker Samples.crlf_world
           Samples.jobs_test_go (u "TestPruneJobIntegration")
           (u "test/tftest/jobs/prune_job.tftest.hcl") Samples.crlf_test);
    vm_compute; reflexivity.
Defined.

(** C1, as it was stated of every byte, fails on a file stored with CR LF line
    ends.  The file holds the signature of the identifier once and the call
    succeeds, but what it stores has no CR left: the line ends after the
    insertion point are not the ones that were there, and the new content is
    the old one with a text put in at no place whatever. *)
Lemma add_skip_marker_rewrites_line_ends :
  files Samples.crlf_world !! Samples.jobs_test_go = Some Samples.crlf_test
  ∧ count_sub (signature (u "TestPruneJobIntegration")) Samples.crlf_test = 1
  ∧ ∃ w',
      add_skip_marker_on_disk Samples.jobs_test_go (u "TestPruneJobIntegration")
        (u "test/tftest/jobs/prune_job.tftest.hcl") Samples.crlf_world
      = Some (true, w')
      ∧ files w' !! Samples.jobs_test_go
        = Some (u "func TestPruneJobIntegration(t *testing.T) {"
                  ++ skip_line (u "test/tftest/jobs/prune_job.tftest.hcl")
                  ++ [NL; TAB] ++ u "runPrune(t)" ++ [NL] ++ u "}" ++ [NL])
      ∧ (∀ new, files w' !! Samples.jobs_test_go = Some new →
                CR ∈ Samples.crlf_test ∧ (CR ∉ new)
                ∧ (∀ i x, new ≠ splice Samples.crlf_test i x)).
Proof.
  split; [vm_compute; reflexivity|]. split; [vm_compute; reflexivity|].
  eexists. split; [vm_compute; reflexivity|]. split; [vm_compute; reflexivity|].
  intros new Hnew. vm_compute in Hnew. injection Hnew as <-.
  assert (CR ∈ Samples.crlf_test) as Hin.
  { apply (bool_decide_unpack _). vm_compute. reflexivity. }
  split; [exact Hin|].
  match goal with
  | |- (CR ∉ ?l) ∧ _ =>
      assert (CR ∉ l) as Hout
        by (apply (bool_decide_unpack _); vm_compute; reflexivity)
  end.
  split; [exact Hout|]. intros i x E. apply Hout. rewrite E. unfold splice.
  rewrite <- (take_drop i Samples.crlf_test) in Hin.
  rewrite !elem_of_app. apply elem_of_app in Hin as [?|?]; auto.
Qed.



(** Outside the literal names the name is read as part of the pattern: the
    dot of [Test.A] stands for any character, and the search matches
    [func TestXA(t *testing.T) {], a text that does not hold the signature of
    [Test.A]. *)
Lemma search_dotted_name_is_a_pattern :
  Re.search (pattern Samples.dotted_name) Samples.dotted_file
  = Some (Re.Match (Re.Span 0 27))
  ∧ ¬ contains (signature Samples.dotted_name) Samples.dotted_file.
Proof.
  split; [vm_compute; reflexivity|].
  rewrite contains_count. vm_compute. lia.
Qed.

(** C4.  When the file exists and the pattern has no match in its text, the
    call reports failure, prints the diagnostic, and leaves every file as it
    was; the empty text is such a text for every pattern. *)
Theorem add_skip_marker_no_match_leaves_file
    (w : world) (filepath test_name hcl_path content : str) :
  files w !! filepath = Some content →
  Re.search (pattern test_name) content = Some Re.NoMatch →
  (∃ w', add_skip_marker filepath test_name hcl_path w = Some (false, w')
         ∧ files w' = files w
         ∧ files w' !! filepath = Some content
         ∧ stdout w' = stdout w ++ [function_not_found filepath test_name])
  ∧ (is_Some (Re.parse (pattern test_name)) →
     Re.search (pattern test_name) [] = Some Re.NoMatch).
Proof.
  intros Hf Hs. split; [|apply search_empty].
  eexists. split; [by eapply add_skip_marker_no_match|]. done.
Qed.

Lemma add_skip_marker_no_match_leaves_file_witness :
  (∃ w', add_skip_marker Samples.jobs_test_go (u "TestPruneJobIntegration")
           (u "test/tftest/jobs/prune_job.tftest.hcl") Samples.empty_world
         = Some (false, w')
         ∧ files w' = files Samples.empty_world
         ∧ files w' !! Samples.jobs_test_go = Some []
         ∧ stdout w'
           = stdout Samples.empty_world
               ++ [function_not_found Samples.jobs_test_go
                     (u "TestPruneJobIntegration")])
  ∧ (is_Some (Re.parse (pattern (u "TestPruneJobIntegration"))) →
     Re.search (pattern (u "TestPruneJobIntegration")) [] = Some Re.NoMatch).
Proof.
  apply (add_skip_marker_no_match_leaves_file Samples.empty_world
           Samples.jobs_test_go (u "TestPruneJobIntegration")
           (u "test/tftest/jobs/prune_job.tftest.hcl") []);
    vm_compute; reflexivity.
Defined.

(** C5.  When the path names no file, the call returns failure (it raises
    nothing), prints the diagnostic and creates no file; the loop of the
    driver counts the pair as attempted, not as succeeded, prints the failure
    line and goes on with the pairs that follow. *)
Theorem add_skip_marker_missing_file_is_tallied
    (w : world) (filepath test_name hcl_path : str)
    (tests : list (str * str)) (k : counters) :
  files w !! filepath = None →
  ∃ w', add_skip_marker filepath test_name hcl_path w = Some (false, w')
        ∧ files w' = files w
        ∧ stdout w' = stdout w ++ [file_not_found filepath]
        ∧ for_tests filepath ((test_name, hcl_path) :: tests) k w
          = for_tests filepath tests
              (Counters (success_count k) (S (total_count k)))
              (print (u "  " ++ [CROSS_MARK] ++ u " " ++ test_name) w').
Proof.
  intros Hf. eexists. split; [by apply add_skip_marker_missing|].
  repeat split. cbn [for_tests]. rewrite add_skip_marker_missing by done.
  reflexivity.
Qed.

Lemma add_skip_marker_missing_file_is_tallied_witness :
  ∃ w', add_skip_marker (u "test/integration/remotes_test.go")
          (u "TestRemotesIntegration") (u "test/tftest/remotes/remote.tftest.hcl")
          Samples.one_test_world
        = Some (false, w')
        ∧ files w' = files Samples.one_test_world
        ∧ stdout w'
          = stdout Samples.one_test_world
              ++ [file_not_found (u "test/integration/remotes_test.go")]
        ∧ for_tests (u "test/integration/remotes_test.go")
            ((u "TestRemotesIntegration", u "test/tftest/remotes/remote.tftest.hcl")
               :: [(u "TestRemoteImport", u "covered by HCL tests")])
            (Counters 0 0) Samples.one_test_world
          = for_tests (u "test/integration/remotes_test.go")
              [(u "TestRemoteImport", u "covered by HCL tests")]
              (Counters (success_count (Counters 0 0))
                 (S (total_count (Counters 0 0))))
              (print (u "  " ++ [CROSS_MARK] ++ u " " ++ u "TestRemotesIntegration") w').
Proof.
  apply (add_skip_marker_missing_file_is_tallied Samples.one_test_world
           (u "test/integration/remotes_test.go") (u "TestRemotesIntegration")
           (u "test/tftest/remotes/remote.tftest.hcl")
           [(u "TestRemoteImport", u "covered by HCL tests")] (Counters 0 0)).
  vm_compute; reflexivity.
Defined.

(** ** All the matches of a pattern, and the lines of a text *)

Section Offsets.

Implicit Types (p : list Re.atom) (s a b x : str) (i j k : nat).

Lemma search_from_head p s k :
  Re.search_from p s k = head (match_offsets_from p s k).
Proof.
  revert k; induction s as [|c s IH]; intros k; simpl.
  - by destruct (Re.match_here p []).
  - destruct (Re.match_here p (c :: s)); simpl; [reflexivity | apply IH].
Qed.

Lemma elem_of_match_offsets_from p s k j :
  j ∈ match_offsets_from p s k
  ↔ ∃ n, j = k + n ∧ n ≤ length s ∧ Re.match_here p (drop n s) = true.
Proof.
  revert k; induction s as [|c s IH]; intros k; simpl.
  - rewrite app_nil_r. split.
    + destruct (Re.match_here p []) eqn:E; [|by intros ?%elem_of_nil].
      intros ->%list_elem_of_singleton. exists 0. simpl. split; [lia | done].
    + intros (n & -> & Hn & Hm). replace n with 0 in * by lia.
      simpl in Hm. rewrite Hm, Nat.add_0_r. by apply list_elem_of_singleton.
  - rewrite elem_of_app, IH. split.
    + intros [H | (n & -> & Hn & Hm)].
      * destruct (Re.match_here p (c :: s)) eqn:E; [|by apply elem_of_nil in H].
        apply list_elem_of_singleton in H as ->.
        exists 0. simpl. repeat split; [lia | lia | done].
      * exists (S n). simpl. repeat split; [lia | lia | done].
    + intros ([|n] & -> & Hn & Hm); simpl in Hm.
      * left. rewrite Hm, Nat.add_0_r. by apply list_elem_of_singleton.
      * right. exists n. repeat split; [lia | lia | done].
Qed.

Lemma match_offsets_from_lit (q : str) s k :
  match_offsets_from (map Re.Lit q) s k = occurrences_from q s k.
Proof.
  revert k; induction s as [|c s IH]; intros k; simpl; rewrite match_here_lit;
    [done | by rewrite IH].
Qed.

Lemma match_offsets_from_lb p s k : Forall (λ j, k ≤ j) (match_offsets_from p s k).
Proof.
  apply Forall_forall. intros j (n & -> & _)%elem_of_match_offsets_from. lia.
Qed.

(** The first offset is the leftmost. *)
Lemma match_offsets_from_cons p s k i rest :
  match_offsets_from p s k = i :: rest → Forall (λ j, i < j) rest.
Proof.
  revert k; induction s as [|c s IH]; intros k; simpl.
  - rewrite app_nil_r. destruct (Re.match_here p []); [|discriminate].
    intros [= <- <-]. constructor.
  - destruct (Re.match_here p (c :: s)); simpl.
    + intros [= <- <-]. eapply Forall_impl; [apply match_offsets_from_lb|].
      simpl. lia.
    + apply IH.
Qed.

(** A match past the place of the insertion is still there, moved by the
    length of what was put in. *)
Lemma match_offsets_splice p s e x j :
  e ≤ j → j ∈ match_offsets p s →
  j + length x ∈ match_offsets p (splice s e x).
Proof.
  unfold match_offsets. rewrite !elem_of_match_offsets_from.
  intros He (n & -> & Hn & Hm). simpl in *.
  exists (n + length x). unfold splice.
  rewrite !length_app, length_take, length_drop.
  repeat split; [lia|].
  rewrite drop_app_ge by (rewrite length_take; lia).
  rewrite length_take, drop_app_ge by lia.
  rewrite drop_drop.
  replace (e + (n + length x - e `min` length s - length x)) with n by lia.
  done.
Qed.

Lemma split_lines_not_nil s : split_lines s ≠ [].
Proof.
  induction s as [|c s IH]; simpl; [done|].
  destruct (N.eqb c NL); [done|]. by destruct (split_lines s).
Qed.

(** A newline ends the last line before it and starts a line after it. *)
Lemma split_lines_app_nl a b :
  split_lines (a ++ NL :: b) = split_lines a ++ split_lines b.
Proof.
  induction a as [|c a IH]; [reflexivity|].
  cbn [app split_lines]. rewrite IH.
  destruct (N.eqb c NL); [reflexivity|].
  pose proof (split_lines_not_nil a). by destruct (split_lines a).
Qed.

Lemma split_lines_one_line s : NL ∉ s → split_lines s = [s].
Proof.
  induction s as [|c s IH]; [reflexivity|]. intros Hs.
  apply not_elem_of_cons in Hs as [Hc Hs]. cbn [split_lines].
  rewrite IH by done. apply not_eq_sym, N.eqb_neq in Hc.
  by rewrite Hc.
Qed.

End Offsets.

(** ** Where the marker goes *)

Lemma search_match_offsets test_name content atoms i rest :
  Re.parse (pattern test_name) = Some atoms →
  match_offsets atoms content = i :: rest →
  Re.search (pattern test_name) content
  = Some (Re.Match (Re.Span i (i + length atoms))).
Proof.
  intros Ha Hm. unfold Re.search. rewrite Ha. cbn [mbind option_bind].
  rewrite search_from_head. fold (match_offsets atoms content).
  by rewrite Hm.
Qed.

(** C9.  When the pattern of the name matches at more than one place in the
    text, one call succeeds and the file then holds the text with one marker
    line, between two newlines, right after the end of the leftmost match;
    the text before and after the cut is the old text, and every later match that starts past the cut is still a match,
    moved by the length of the inserted text.  For a name without pattern
    characters the matches are the occurrences of the signature. *)
Theorem add_skip_marker_marks_leftmost_match
    (w : world) (filepath test_name hcl_path content : str)
    (atoms : list Re.atom) (i : nat) (rest : list nat) :
  files w !! filepath = Some content →
  Re.parse (pattern test_name) = Some atoms →
  match_offsets atoms content = i :: rest →
  rest ≠ [] →
  let e := i + length atoms in
  let new_content :=
    take e content ++ [NL] ++ marker_line hcl_path ++ [NL] ++ drop e content in
  (∃ w', add_skip_marker filepath test_name hcl_path w = Some (true, w')
         ∧ files w' = <[filepath := new_content]> (files w)
         ∧ files w' !! filepath = Some new_content
         ∧ stdout w' = stdout w)
  ∧ Re.match_here atoms (drop i content) = true
  ∧ Forall (λ j, i < j) rest
  ∧ (∀ j, j ∈ rest → e ≤ j →
          j + length (skip_line hcl_path) ∈ match_offsets atoms new_content)
  ∧ (regex_inert test_name = true →
     match_offsets atoms content = occurrences (signature test_name) content).
Proof.
  intros Hf Ha Hm Hrest e new_content.
  assert (new_content = splice content e (skip_line hcl_path)) as Hnew.
  { unfold new_content, splice. by rewrite skip_line_marker_line, <- !app_assoc. }
  split; [|split; [|split; [|split]]].
  - exists (write_text filepath new_content w).
    split; [|split; [done|split; [apply lookup_insert_eq | done]]].
    rewrite Hnew.
    by rewrite (add_skip_marker_match _ _ _ _ content (Re.Span i e))
      by eauto using search_match_offsets.
  - assert (i ∈ match_offsets atoms content) as Hi by (rewrite Hm; left).
    apply elem_of_match_offsets_from in Hi as (n & -> & _ & Hn). done.
  - by eapply match_offsets_from_cons.
  - intros j Hj He. rewrite Hnew. apply match_offsets_splice; [done|].
    rewrite Hm. by right.
  - intros Hn. rewrite parse_pattern_inert in Ha by done.
    assert (atoms = map Re.Lit (signature test_name)) as -> by congruence.
    apply match_offsets_from_lit.
Qed.

Lemma add_skip_marker_marks_leftmost_match_witness :
  let atoms := map Re.Lit (signature (u "TestDup")) in
  let e := 0 + length atoms in
  let new_content :=
    take e Samples.twice ++ [NL] ++ marker_line (u "merged") ++ [NL]
      ++ drop e Samples.twice in
  (∃ w', add_skip_marker Samples.jobs_test_go (u "TestDup") (u "merged")
           Samples.twice_world
         = Some (true, w')
         ∧ files w' = <[Samples.jobs_test_go := new_content]> (files Samples.twice_world)
         ∧ files w' !! Samples.jobs_test_go = Some new_content
         ∧ stdout w' = stdout Samples.twice_world)
  ∧ Re.match_here atoms (drop 0 Samples.twice) = true
  ∧ Forall (λ j, 0 < j) [34]
  ∧ (∀ j, j ∈ [34] → e ≤ j →
          j + length (skip_line (u "merged")) ∈ match_offsets atoms new_content)
  ∧ (regex_inert (u "TestDup") = true →
     match_offsets atoms Samples.twice
     = occurrences (signature (u "TestDup")) Samples.twice).
Proof.
  apply (add_skip_marker_marks_leftmost_match Samples.twice_world
           Samples.jobs_test_go (u "TestDup") (u "merged") Samples.twice
           (map Re.Lit (signature (u "TestDup"))) 0 [34]);
    [vm_compute; reflexivity .. | discriminate].
Defined.

Lemma marker_text_one_line : NL ∉ marker_text.
Proof.
  intros H. vm_compute in H.
  repeat (apply elem_of_cons in H as [H|H]; [discriminate|]).
  by apply elem_of_nil in H.
Qed.

(** C10.  When the call succeeds and the character right after the match (the
    one after the opening brace) is a newline, the file then holds a text
    with the marker
    line and then an empty line between the line of the signature and the
    line that followed it: the inserted text opens and closes with a newline
    of its own, and the newline that was there stays. *)
Theorem add_skip_marker_leaves_empty_line
    (w : world) (filepath test_name hcl_path content : str) (m : Re.span) :
  files w !! filepath = Some content →
  Re.search (pattern test_name) content = Some (Re.Match m) →
  content !! Re.m_end m = Some NL →
  ∃ before after w',
    content = before ++ [NL] ++ after
    ∧ length before = Re.m_end m
    ∧ add_skip_marker filepath test_name hcl_path w = Some (true, w')
    ∧ files w'
      = <[filepath := before ++ [NL] ++ marker_line hcl_path
                        ++ [NL] ++ [NL] ++ after]> (files w)
    ∧ files w' !! filepath
      = Some (before ++ [NL] ++ marker_line hcl_path ++ [NL] ++ [NL] ++ after)
    ∧ split_lines content = split_lines before ++ split_lines after
    ∧ split_lines (before ++ [NL] ++ marker_line hcl_path ++ [NL] ++ [NL] ++ after)
      = split_lines before ++ split_lines (marker_line hcl_path)
          ++ [[]] ++ split_lines after
    ∧ (NL ∉ hcl_path → split_lines (marker_line hcl_path) = [marker_line hcl_path]).
Proof.
  intros Hf Hs Hnl.
  pose proof (take_drop_middle _ _ _ Hnl) as Hc. symmetry in Hc.
  apply lookup_lt_Some in Hnl as Hlt.
  exists (take (Re.m_end m) content), (drop (S (Re.m_end m)) content),
    (write_text filepath
       (take (Re.m_end m) content ++ [NL] ++ marker_line hcl_path
          ++ [NL] ++ [NL] ++ drop (S (Re.m_end m)) content) w).
  split; [done|]. split; [rewrite length_take; lia|].
  split; [|split; [done|split; [apply lookup_insert_eq|split; [|split]]]].
  - rewrite (add_skip_marker_match _ _ _ _ content m) by done.
    do 3 f_equal. unfold splice.
    rewrite skip_line_marker_line, <- !app_assoc. do 4 f_equal.
    by rewrite (drop_S _ _ _ Hnl).
  - rewrite Hc at 1. apply split_lines_app_nl.
  - cbn [app]. by rewrite split_lines_app_nl, split_lines_app_nl.
  - intros Hl. apply split_lines_one_line.
    unfold marker_line. change ([TAB] ++ ?x) with (TAB :: x).
    fold marker_text.
    replace (TAB :: u "t.Skip(" ++ [DQUOTE; CHECK_MARK] ++ u " CONVERTED TO HCL: "
               ++ hcl_path ++ [DQUOTE] ++ u ")")
      with (marker_text ++ hcl_path ++ [DQUOTE] ++ u ")")
      by (unfold marker_text; by rewrite <- !app_assoc).
    rewrite !not_elem_of_app. split; [apply marker_text_one_line|].
    split; [done|]. split; intros H; vm_compute in H;
      repeat (apply elem_of_cons in H as [H|H]; [discriminate|]);
      by apply elem_of_nil in H.
Qed.

Lemma add_skip_marker_leaves_empty_line_witness :
  ∃ before after w',
    Samples.one_test = before ++ [NL] ++ after
    ∧ length before = Re.m_end (Re.Span 21 65)
    ∧ add_skip_marker Samples.jobs_test_go (u "TestPruneJobIntegration")
        (u "test/tftest/jobs/prune_job.tftest.hcl") Samples.one_test_world
      = Some (true, w')
    ∧ files w'
      = <[Samples.jobs_test_go :=
            before ++ [NL]
              ++ marker_line (u "test/tftest/jobs/prune_job.tftest.hcl")
              ++ [NL] ++ [NL] ++ after]> (files Samples.one_test_world)
    ∧ files w' !! Samples.jobs_test_go
      = Some (before ++ [NL]
                ++ marker_line (u "test/tftest/jobs/prune_job.tftest.hcl")
                ++ [NL] ++ [NL] ++ after)
    ∧ split_lines Samples.one_test = split_lines before ++ split_lines after
    ∧ split_lines (before ++ [NL]
                     ++ marker_line (u "test/tftest/jobs/prune_job.tftest.hcl")
                     ++ [NL] ++ [NL] ++ after)
      = split_lines before
          ++ split_lines (marker_line (u "test/tftest/jobs/prune_job.tftest.hcl"))
          ++ [[]] ++ split_lines after
    ∧ (NL ∉ u "test/tftest/jobs/prune_job.tftest.hcl" →
       split_lines (marker_line (u "test/tftest/jobs/prune_job.tftest.hcl"))
       = [marker_line (u "test/tftest/jobs/prune_job.tftest.hcl")]).
Proof.
  apply (add_skip_marker_leaves_empty_line Samples.one_test_world
           Samples.jobs_test_go (u "TestPruneJobIntegration")
           (u "test/tftest/jobs/prune_job.tftest.hcl") Samples.one_test
           (Re.Span 21 65));
    vm_compute; reflexivity.
Defined.

(** C7.  In a file whose first opening line of [TestPruneJobIntegration] is
    followed by a body, the call for that name with the label
    [test/tftest/jobs/prune_job.tftest.hcl] succeeds, and the file then
    holds, on the line right below
    the opening line, a tab and [t.Skip("<check mark> CONVERTED TO HCL:
    test/tftest/jobs/prune_job.tftest.hcl")]; what came before the opening
    line and the body after it are as they were. *)
Theorem prune_job_marker_scenario (w : world) (filepath before body : str) :
  files w !! filepath
  = Some (before ++ u "func TestPruneJobIntegration(t *testing.T) {" ++ body) →
  head (occurrences (u "func TestPruneJobIntegration(t *testing.T) {")
          (before ++ u "func TestPruneJobIntegration(t *testing.T) {" ++ body))
  = Some (length before) →
  (∃ w',
     add_skip_marker filepath (u "TestPruneJobIntegration")
       (u "test/tftest/jobs/prune_job.tftest.hcl") w
     = Some (true, w')
     ∧ files w' !! filepath
       = Some (before ++ u "func TestPruneJobIntegration(t *testing.T) {"
                 ++ [NL]
                 ++ [TAB] ++ u "t.Skip(" ++ [DQUOTE; CHECK_MARK]
                 ++ u " CONVERTED TO HCL: test/tftest/jobs/prune_job.tftest.hcl"
                 ++ [DQUOTE] ++ u ")"
                 ++ [NL] ++ body)
     ∧ (∀ other, other ≠ filepath → files w' !! other = files w !! other)
     ∧ stdout w' = stdout w)
  ∧ split_lines
      (before ++ u "func TestPruneJobIntegration(t *testing.T) {"
         ++ [NL]
         ++ [TAB] ++ u "t.Skip(" ++ [DQUOTE; CHECK_MARK]
         ++ u " CONVERTED TO HCL: test/tftest/jobs/prune_job.tftest.hcl"
         ++ [DQUOTE] ++ u ")"
         ++ [NL] ++ body)
    = split_lines (before ++ u "func TestPruneJobIntegration(t *testing.T) {")
        ++ [[TAB] ++ u "t.Skip(" ++ [DQUOTE; CHECK_MARK]
              ++ u " CONVERTED TO HCL: test/tftest/jobs/prune_job.tftest.hcl"
              ++ [DQUOTE] ++ u ")"]
        ++ split_lines body.
Proof.
  intros Hf Hocc. split.
  - exists (write_text filepath
              (before ++ u "func TestPruneJobIntegration(t *testing.T) {"
                 ++ [NL]
                 ++ [TAB] ++ u "t.Skip(" ++ [DQUOTE; CHECK_MARK]
                 ++ u " CONVERTED TO HCL: test/tftest/jobs/prune_job.tftest.hcl"
                 ++ [DQUOTE] ++ u ")"
                 ++ [NL] ++ body) w).
    split; [|split; [apply lookup_insert_eq|split; [|reflexivity]]];
      [|intros other Hne; cbn [files write_text]; by apply lookup_insert_ne].
    rewrite (add_skip_marker_inert w filepath (u "TestPruneJobIntegration") _ _
               eq_refl Hf).
    change (signature (u "TestPruneJobIntegration"))
      with (u "func TestPruneJobIntegration(t *testing.T) {").
    rewrite Hocc. do 3 f_equal.
    rewrite <- length_app.
    rewrite (splice_at _ (before ++ u "func TestPruneJobIntegration(t *testing.T) {") body)
      by (by rewrite <- app_assoc).
    rewrite <- !app_assoc. reflexivity.
  - rewrite (app_assoc before).
    change ([NL] ++ ?x) with (NL :: x).
    rewrite split_lines_app_nl. reflexivity.
Qed.

Lemma prune_job_marker_scenario_witness :
  ∃ w',
    add_skip_marker Samples.jobs_test_go (u "TestPruneJobIntegration")
      (u "test/tftest/jobs/prune_job.tftest.hcl") Samples.one_test_world
    = Some (true, w')
    ∧ files w' !! Samples.jobs_test_go
      = Some ((u "package integration" ++ [NL; NL])
                ++ u "func TestPruneJobIntegration(t *testing.T) {"
                ++ [NL]
                ++ [TAB] ++ u "t.Skip(" ++ [DQUOTE; CHECK_MARK]
                ++ u " CONVERTED TO HCL: test/tftest/jobs/prune_job.tftest.hcl"
                ++ [DQUOTE] ++ u ")"
                ++ [NL] ++ ([NL; TAB] ++ u "runPrune(t)" ++ [NL] ++ u "}" ++ [NL]))
    ∧ (∀ other, other ≠ Samples.jobs_test_go →
         files w' !! other = files Samples.one_test_world !! other)
    ∧ stdout w' = stdout Samples.one_test_world.
Proof.
  refine (proj1 (prune_job_marker_scenario Samples.one_test_world
                   Samples.jobs_test_go (u "package integration" ++ [NL; NL])
                   ([NL; TAB] ++ u "runPrune(t)" ++ [NL] ++ u "}" ++ [NL]) _ _));
    vm_compute; reflexivity.
Defined.

(** ** Counting across an insertion *)

Section Counting.

Implicit Types (q s a b body : str) (c g : N).

Lemma count_sub_zero q s : count_sub q s = 0 ↔ ¬ contains q s.
Proof. rewrite contains_count. lia. Qed.

(** A character that is not in [q] cuts the text in two for counting. *)
Lemma is_prefix_sep q a b c : c ∉ q → is_prefix q (a ++ c :: b) = is_prefix q a.
Proof.
  revert a; induction q as [|y q IH]; intros a Hc; [by destruct a|].
  apply not_elem_of_cons in Hc as [Hy Hq].
  destruct a as [|x a]; cbn [app is_prefix].
  - apply N.eqb_neq in Hy. by rewrite Hy.
  - by rewrite IH.
Qed.

Lemma count_sub_sep q a b c :
  c ∉ q → count_sub q (a ++ c :: b) = count_sub q a + count_sub q b.
Proof.
  intros Hc. induction a as [|x a IH]; cbn [app count_sub].
  - pose proof (is_prefix_sep q [] b c Hc) as H. cbn [app] in H. rewrite H. lia.
  - pose proof (is_prefix_sep q (x :: a) b c Hc) as H. cbn [app] in H.
    rewrite H, IH. lia.
Qed.

(** The same for a [q] that ends with the cutting character and holds it
    nowhere else. *)
Lemma is_prefix_last_sep body a b c :
  c ∉ body →
  is_prefix (body ++ [c]) (a ++ c :: b) = is_prefix (body ++ [c]) (a ++ [c]).
Proof.
  revert a; induction body as [|y body IH]; intros a Hc.
  - destruct a as [|x a]; cbn [app is_prefix]; by rewrite ?andb_true_r.
  - apply not_elem_of_cons in Hc as [Hy Hq].
    destruct a as [|x a]; cbn [app is_prefix].
    + apply N.eqb_neq in Hy. by rewrite Hy.
    + by rewrite IH.
Qed.

Lemma count_sub_last_sep body a b c :
  c ∉ body →
  count_sub (body ++ [c]) (a ++ c :: b)
  = count_sub (body ++ [c]) (a ++ [c]) + count_sub (body ++ [c]) b.
Proof.
  intros Hc. pose proof (λ a, is_prefix_last_sep body a b c Hc) as Hsep.
  assert (is_prefix (body ++ [c]) [] = false) as Hnil by (by destruct body).
  revert Hsep Hnil. generalize (body ++ [c]). intros q Hsep Hnil.
  induction a as [|x a IH].
  - pose proof (Hsep []) as H. cbn [app] in H.
    cbn [app count_sub]. rewrite H, Hnil. lia.
  - pose proof (Hsep (x :: a)) as H. cbn [app] in H.
    cbn [app count_sub]. rewrite H, IH. lia.
Qed.

Lemma count_sub_absent q s g : g ∈ q → g ∉ s → count_sub q s = 0.
Proof.
  intros Hq Hs. apply count_sub_zero. intros (a & b & ->). apply Hs.
  rewrite !elem_of_app. auto.
Qed.

(** No occurrence when the text does not hold the character [g] of [q] far
    enough to the right. *)
Lemma count_sub_late q s g j :
  q !! j = Some g → (∀ n, s !! (n + j) ≠ Some g) → count_sub q s = 0.
Proof.
  intros Hq Hs. apply count_sub_zero. intros (a & b & ->).
  apply (Hs (length a)).
  rewrite lookup_app_r by lia. replace (length a + j - length a) with j by lia.
  apply lookup_app_l_Some. done.
Qed.

End Counting.

(** ** What an insertion does to signatures and to markers *)

Section Insertion.

Implicit Types (q s a b pre post name label : str) (c : N).

Lemma ident_char_not_brace_newline c :
  ident_char c = true → c ≠ LBRACE ∧ c ≠ NL.
Proof.
  unfold ident_char, Re.is_ascii_letter, Re.is_digit, LBRACE, NL.
  rewrite !orb_true_iff, !andb_true_iff, !N.leb_le, !N.eqb_eq. lia.
Qed.

Lemma is_identifier_elem name c :
  is_identifier name = true → c ∈ name → ident_char c = true.
Proof.
  unfold is_identifier. rewrite forallb_forall.
  intros H Hc. by apply H, list_elem_of_In.
Qed.

Lemma signature_split name :
  signature name = (u "func " ++ name ++ u "(t *testing.T) ") ++ [LBRACE].
Proof. unfold signature. by rewrite <- !app_assoc. Qed.

Lemma signature_body_no_brace name :
  is_identifier name = true → LBRACE ∉ u "func " ++ name ++ u "(t *testing.T) ".
Proof.
  intros Hn. rewrite !not_elem_of_app. split; [not_in_literal|].
  split; [|not_in_literal].
  intros Hc. by apply (is_identifier_elem _ _ Hn), ident_char_not_brace_newline in Hc as [? ?].
Qed.

Lemma signature_no_newline name : is_identifier name = true → NL ∉ signature name.
Proof.
  intros Hn. unfold signature. rewrite !not_elem_of_app.
  split; [not_in_literal|]. split; [|not_in_literal].
  intros Hc. by apply (is_identifier_elem _ _ Hn), ident_char_not_brace_newline in Hc as [? ?].
Qed.

Lemma plain_label_elem label c :
  plain_label label = true → c ∈ label → c ≠ LBRACE ∧ c ≠ CHECK_MARK.
Proof.
  unfold plain_label. rewrite forallb_forall. intros H Hc%list_elem_of_In.
  apply H in Hc. apply andb_true_iff in Hc as [H1 H2].
  by apply negb_true_iff, N.eqb_neq in H1, H2.
Qed.

Lemma marker_line_split label :
  marker_line label = marker_text ++ label ++ [DQUOTE] ++ u ")".
Proof. unfold marker_line, marker_text. by rewrite <- !app_assoc. Qed.

Lemma marker_line_no_brace label :
  plain_label label = true → LBRACE ∉ marker_line label.
Proof.
  intros Hl. rewrite marker_line_split, !not_elem_of_app.
  split; [not_in_literal|]. split; [|split; not_in_literal].
  intros Hc. by apply (plain_label_elem _ _ Hl) in Hc as [? _].
Qed.

(** The marker line of a plain label holds the marker text once. *)
Lemma count_marker_text_marker_line label :
  plain_label label = true → count_sub marker_text (marker_line label) = 1.
Proof.
  intros Hl. rewrite marker_line_split.
  assert (∀ r, marker_text ++ r = TAB :: (tail marker_text ++ r)) as E by done.
  rewrite E. cbn [count_sub]. rewrite <- E, is_prefix_app.
  rewrite (count_sub_late marker_text _ CHECK_MARK 9); [done | done |].
  intros n Hn.
  change (tail marker_text)
    with (u "t.Skip(" ++ [DQUOTE] ++ CHECK_MARK :: u " CONVERTED TO HCL: ") in Hn.
  rewrite <- !app_assoc in Hn.
  rewrite lookup_app_r in Hn by (cbn; lia).
  rewrite lookup_app_r in Hn by (cbn; lia).
  replace (n + 9 - length (u "t.Skip(") - length [DQUOTE]) with (S n) in Hn
    by (cbn; lia).
  cbn [app lookup list_lookup] in Hn.
  apply list_elem_of_lookup_2 in Hn.
  rewrite !elem_of_app in Hn. destruct Hn as [Hn | [Hn | Hn]].
  - revert Hn. not_in_literal.
  - by apply (plain_label_elem _ _ Hl) in Hn as [_ ?].
  - revert Hn. not_in_literal.
Qed.

Lemma skip_line_cons label post :
  skip_line label ++ post = NL :: marker_line label ++ NL :: post.
Proof. rewrite skip_line_marker_line. by rewrite <- !app_assoc. Qed.

(** A text put right after a character [c], between two characters [d]: the
    count of a [q] that ends with its only [c] and holds no [d] does not
    change when the text holds no [c]. *)
Lemma count_sub_insert_after body c d x pre post :
  c ∉ body → d ∉ body ++ [c] → c ∉ x →
  count_sub (body ++ [c]) (pre ++ c :: d :: x ++ d :: post)
  = count_sub (body ++ [c]) (pre ++ c :: post).
Proof.
  intros Hc Hd Hx.
  rewrite (count_sub_last_sep body pre (d :: x ++ d :: post)) by done.
  rewrite (count_sub_last_sep body pre post) by done. f_equal.
  change (d :: x ++ d :: post) with ([] ++ d :: (x ++ d :: post)).
  rewrite (count_sub_sep _ [] _ d Hd), (count_sub_sep _ x _ d Hd).
  rewrite (count_sub_absent _ x c); [|rewrite elem_of_app; right; left|done].
  replace (count_sub (body ++ [c]) []) with 0; [done|].
  cbn [count_sub]. by destruct body.
Qed.

(** Putting a skip line of a plain label right after a brace neither makes
    nor breaks a signature of an identifier. *)
Lemma count_signature_insert name pre post label :
  is_identifier name = true → plain_label label = true →
  count_sub (signature name) (pre ++ LBRACE :: skip_line label ++ post)
  = count_sub (signature name) (pre ++ LBRACE :: post).
Proof.
  intros Hn Hl. pose proof (signature_no_newline name Hn) as Hnl.
  rewrite skip_line_cons. rewrite signature_split in Hnl |- *.
  apply count_sub_insert_after; [|done|].
  - by apply signature_body_no_brace.
  - by apply marker_line_no_brace.
Qed.

(** It adds one marker text. *)
Lemma count_marker_insert pre post label :
  plain_label label = true →
  count_sub marker_text (pre ++ LBRACE :: skip_line label ++ post)
  = S (count_sub marker_text (pre ++ LBRACE :: post)).
Proof.
  intros Hl. assert (LBRACE ∉ marker_text) as Hb by not_in_literal.
  pose proof marker_text_one_line as Hnl.
  pose proof (count_marker_text_marker_line label Hl) as Hone.
  assert (is_prefix marker_text [] = false) as Hnil by done.
  rewrite skip_line_cons.
  revert Hb Hnl Hone Hnil. generalize marker_text (marker_line label).
  intros q x Hb Hnl Hone Hnil.
  rewrite (count_sub_sep q pre (NL :: x ++ NL :: post) LBRACE Hb).
  rewrite (count_sub_sep q pre post LBRACE Hb).
  change (NL :: x ++ NL :: post) with ([] ++ NL :: (x ++ NL :: post)).
  rewrite (count_sub_sep q [] (x ++ NL :: post) NL Hnl).
  rewrite (count_sub_sep q x post NL Hnl).
  rewrite Hone. cbn [count_sub]. rewrite Hnil. lia.
Qed.

End Insertion.

(** ** The loops of the driver *)

Section Driver.

Implicit Types (w : world) (fs : gmap (list N) (list N)) (k : counters)
  (filepath test_name hcl_path : str) (tests : list (str * str))
  (table : list (str * list (str * str))).

Lemma markers_insert fs filepath content content' :
  fs !! filepath = Some content →
  markers (<[filepath := content']> fs) + count_sub marker_text content
  = markers fs + count_sub marker_text content'.
Proof.
  intros Hf. unfold markers.
  rewrite (map_fold_delete_L _ _ filepath content fs); [|intros; lia|done].
  rewrite (map_fold_delete_L _ _ filepath content' (<[filepath := content']> fs));
    [|intros; lia|apply lookup_insert_eq].
  rewrite delete_insert_eq. lia.
Qed.

Lemma same_signatures_refl fs : same_signatures fs fs.
Proof. by intros ? ? ?. Qed.

Lemma same_signatures_trans fs1 fs2 fs3 :
  same_signatures fs1 fs2 → same_signatures fs2 fs3 → same_signatures fs1 fs3.
Proof. intros H12 H23 p n Hn. by rewrite H23, H12. Qed.

Lemma present_head fs filepath test_name content :
  fs !! filepath = Some content →
  present fs filepath test_name
  = match head (occurrences (signature test_name) content) with
    | Some _ => true
    | None => false
    end.
Proof.
  intros Hf. unfold present. rewrite Hf.
  rewrite <- (count_sub_length _ content 0). fold (occurrences (signature test_name) content).
  by destruct (occurrences (signature test_name) content).
Qed.

(** One call on an identifier and a plain label: it succeeds exactly when the
    signature is in the file, it keeps the signatures of all identifiers in
    all files, and a success adds one marker text. *)
Lemma add_skip_marker_plain w filepath test_name hcl_path :
  is_identifier test_name = true → plain_label hcl_path = true →
  ∃ w', add_skip_marker filepath test_name hcl_path w
        = Some (present (files w) filepath test_name, w')
        ∧ same_signatures (files w) (files w')
        ∧ markers (files w')
          = markers (files w)
            + (if present (files w) filepath test_name then 1 else 0).
Proof.
  intros Hn Hl. destruct (files w !! filepath) as [content|] eqn:Hf.
  - rewrite (add_skip_marker_inert _ _ _ _ content) by auto using is_identifier_inert.
    rewrite (present_head _ _ _ content Hf).
    destruct (head (occurrences (signature test_name) content)) as [i|] eqn:Hh.
    + apply head_occurrences_Some in Hh as (a & b & Hc & ->).
      eexists. split; [reflexivity|]. cbn [files write_text].
      rewrite <- length_app.
      rewrite (splice_at _ (a ++ signature test_name) b) by (by rewrite <- app_assoc).
      assert (content
              = (a ++ u "func " ++ test_name ++ u "(t *testing.T) ") ++ LBRACE :: b)
        as Hc' by (rewrite Hc, signature_split; by rewrite <- !app_assoc).
      assert ((a ++ signature test_name) ++ skip_line hcl_path ++ b
              = (a ++ u "func " ++ test_name ++ u "(t *testing.T) ")
                  ++ LBRACE :: skip_line hcl_path ++ b)
        as -> by (rewrite signature_split; by rewrite <- !app_assoc).
      split.
      * intros p n Hn'. unfold present.
        destruct (decide (filepath = p)) as [<-|Hne].
        -- rewrite lookup_insert_eq, Hf, Hc'. by rewrite count_signature_insert.
        -- by rewrite lookup_insert_ne.
      * pose proof (markers_insert (files w) filepath content
                      ((a ++ u "func " ++ test_name ++ u "(t *testing.T) ")
                         ++ LBRACE :: skip_line hcl_path ++ b) Hf) as Hm.
        rewrite count_marker_insert, <- Hc' in Hm by done. lia.
    + eexists. split; [reflexivity|]. cbn [files print].
      split; [apply same_signatures_refl | lia].
  - rewrite add_skip_marker_missing by done. unfold present. rewrite Hf.
    eexists. split; [reflexivity|]. cbn [files print].
    split; [apply same_signatures_refl | lia].
Qed.

Lemma matching_tests_same fs fs' filepath tests :
  same_signatures fs fs' →
  forallb (λ '(test_name, hcl_path),
             is_identifier test_name && plain_label hcl_path) tests = true →
  matching_tests fs' filepath tests = matching_tests fs filepath tests.
Proof.
  intros Hs. induction tests as [|[n l] tests IH]; [done|].
  cbn [forallb matching_tests]. intros [[Hn _]%andb_true_iff Ht]%andb_true_iff.
  by rewrite IH, Hs.
Qed.

Lemma matching_pairs_same fs fs' table :
  same_signatures fs fs' → plain_table table = true →
  matching_pairs table fs' = matching_pairs table fs.
Proof.
  intros Hs. induction table as [|[p tests] table IH]; [done|].
  cbn [plain_table forallb matching_pairs]. intros [Ht Htable]%andb_true_iff.
  by rewrite IH, (matching_tests_same fs fs').
Qed.

Lemma for_tests_plain filepath tests k w :
  forallb (λ '(test_name, hcl_path),
             is_identifier test_name && plain_label hcl_path) tests = true →
  ∃ w', for_tests filepath tests k w
        = Some (Counters (success_count k + matching_tests (files w) filepath tests)
                  (total_count k + length tests), w')
        ∧ same_signatures (files w) (files w')
        ∧ markers (files w')
          = markers (files w) + matching_tests (files w) filepath tests.
Proof.
  revert k w. induction tests as [|[n l] tests IH]; intros k w.
  - intros _. exists w. cbn [for_tests matching_tests length].
    rewrite !Nat.add_0_r. destruct k. split; [done|].
    split; [apply same_signatures_refl | done].
  - cbn [forallb]. intros [[Hn Hl]%andb_true_iff Ht]%andb_true_iff.
    destruct (add_skip_marker_plain w filepath n l Hn Hl) as (w1 & Hcall & Hs1 & Hm1).
    cbn [for_tests matching_tests length]. rewrite Hcall. cbn [mbind option_bind].
    destruct (present (files w) filepath n).
    + destruct (IH (Counters (S (success_count k)) (S (total_count k)))
                  (print (u "  " ++ [CHECK_MARK] ++ u " " ++ n) w1) Ht)
        as (w' & Hrun & Hs & Hm).
      cbn [files print success_count total_count] in *.
      rewrite (matching_tests_same _ _ _ _ Hs1 Ht) in Hrun, Hm.
      exists w'. rewrite Hrun. split; [do 3 f_equal; lia|].
      split; [by eapply same_signatures_trans | lia].
    + destruct (IH (Counters (success_count k) (S (total_count k)))
                  (print (u "  " ++ [CROSS_MARK] ++ u " " ++ n) w1) Ht)
        as (w' & Hrun & Hs & Hm).
      cbn [files print success_count total_count] in *.
      rewrite (matching_tests_same _ _ _ _ Hs1 Ht) in Hrun, Hm.
      exists w'. rewrite Hrun. split; [do 3 f_equal; lia|].
      split; [by eapply same_signatures_trans | lia].
Qed.

Lemma for_files_plain table k w :
  plain_table table = true →
  ∃ w', for_files table k w
        = Some (Counters (success_count k + matching_pairs table (files w))
                  (total_count k + total_pairs table), w')
        ∧ same_signatures (files w) (files w')
        ∧ markers (files w') = markers (files w) + matching_pairs table (files w).
Proof.
  revert k w. induction table as [|[p tests] table IH]; intros k w.
  - intros _. exists w. cbn [for_files matching_pairs total_pairs].
    rewrite !Nat.add_0_r. destruct k. split; [done|].
    split; [apply same_signatures_refl | done].
  - cbn [plain_table forallb]. intros [Ht Htable]%andb_true_iff.
    destruct (for_tests_plain p tests k (print (u "Processing " ++ p ++ u ":") w) Ht)
      as (w1 & Hrun1 & Hs1 & Hm1).
    cbn [for_files matching_pairs total_pairs]. rewrite Hrun1.
    cbn [mbind option_bind files print] in *.
    destruct (IH (Counters (success_count k + matching_tests (files w) p tests)
                    (total_count k + length tests)) (print [] w1) Htable)
      as (w' & Hrun & Hs & Hm).
    cbn [files print success_count total_count] in *.
    rewrite (matching_pairs_same _ _ _ Hs1 Htable) in Hrun, Hm.
    exists w'. rewrite Hrun. split; [do 3 f_equal; lia|].
    split; [by eapply same_signatures_trans | lia].
Qed.

End Driver.

(** ** The driver on names without pattern characters *)

Section Totals.

Implicit Types (w : world) (k : counters) (filepath test_name hcl_path : str)
  (tests : list (str * str)) (table : list (str * list (str * str))).

Lemma add_skip_marker_returns w filepath test_name hcl_path :
  regex_inert test_name = true →
  ∃ ok w', add_skip_marker filepath test_name hcl_path w = Some (ok, w').
Proof.
  intros Hn. destruct (files w !! filepath) as [content|] eqn:Hf.
  - rewrite (add_skip_marker_inert _ _ _ _ content) by done.
    destruct (head (occurrences (signature test_name) content)); eauto.
  - rewrite add_skip_marker_missing by done. eauto.
Qed.

(** The loop over the tests of a file ends; it counts every pair as attempted
    and at most every pair as succeeded. *)
Lemma for_tests_returns filepath tests k w :
  forallb (λ '(test_name, _), regex_inert test_name) tests = true →
  ∃ k' w', for_tests filepath tests k w = Some (k', w')
           ∧ total_count k' = total_count k + length tests
           ∧ success_count k ≤ success_count k'
           ∧ success_count k' + total_count k ≤ success_count k + total_count k'.
Proof.
  revert k w. induction tests as [|[n l] tests IH]; intros k w.
  - intros _. exists k, w. cbn [for_tests length]. repeat split; lia.
  - cbn [forallb]. intros [Hn Ht]%andb_true_iff.
    destruct (add_skip_marker_returns w filepath n l Hn) as (ok & w1 & Hcall).
    cbn [for_tests length]. rewrite Hcall. cbn [mbind option_bind].
    destruct ok.
    + destruct (IH (Counters (S (success_count k)) (S (total_count k)))
                  (print (u "  " ++ [CHECK_MARK] ++ u " " ++ n) w1) Ht)
        as (k' & w' & Hrun & H1 & H2 & H3).
      cbn [success_count total_count] in *.
      exists k', w'. repeat split; [done | lia..].
    + destruct (IH (Counters (success_count k) (S (total_count k)))
                  (print (u "  " ++ [CROSS_MARK] ++ u " " ++ n) w1) Ht)
        as (k' & w' & Hrun & H1 & H2 & H3).
      cbn [success_count total_count] in *.
      exists k', w'. repeat split; [done | lia..].
Qed.

Lemma for_files_returns table k w :
  inert_table table = true →
  ∃ k' w', for_files table k w = Some (k', w')
           ∧ total_count k' = total_count k + total_pairs table
           ∧ success_count k ≤ success_count k'
           ∧ success_count k' + total_count k ≤ success_count k + total_count k'.
Proof.
  revert k w. induction table as [|[p tests] table IH]; intros k w.
  - intros _. exists k, w. cbn [for_files total_pairs]. repeat split; lia.
  - cbn [inert_table forallb]. intros [Ht Htable]%andb_true_iff.
    destruct (for_tests_returns p tests k (print (u "Processing " ++ p ++ u ":") w) Ht)
      as (k1 & w1 & Hrun1 & Ha & Hb & Hc).
    cbn [for_files total_pairs]. rewrite Hrun1. cbn [mbind option_bind].
    destruct (IH k1 (print [] w1) Htable) as (k' & w' & Hrun & H1 & H2 & H3).
    exists k', w'. repeat split; [done | lia..].
Qed.

Lemma plain_table_inert table : plain_table table = true → inert_table table = true.
Proof.
  induction table as [|[p tests] table IH]; [done|].
  cbn [plain_table inert_table forallb].
  intros [Ht Htable]%andb_true_iff. apply andb_true_iff. split; [|by apply IH].
  clear IH Htable. induction tests as [|[n l] tests IH]; [done|].
  cbn [forallb] in *. apply andb_true_iff in Ht as [[Hn _]%andb_true_iff Ht].
  apply andb_true_iff. split; [by apply is_identifier_inert | by apply IH].
Qed.

End Totals.

(** C6.  On a table of names without pattern characters the driver ends with
    status 0 or 1 and no other: 0 exactly when the count of successes equals
    the count of attempts, 1 exactly when it is smaller.  The count of
    attempts is the number of pairs of the table; for identifiers and plain
    labels the count of successes is the number of pairs whose signature is
    in its file.  The status tells nothing about the kind of a failure. *)
Theorem main_exit_status (table : list (str * list (str * str))) (w : world) :
  inert_table table = true →
  ∃ k w1 code w2,
    for_files table (Counters 0 0)
      (print (u "Adding skip markers to converted Go integration tests..." ++ [NL]) w)
    = Some (k, w1)
    ∧ main_with table w = Some (code, w2)
    ∧ total_count k = total_pairs table
    ∧ success_count k ≤ total_count k
    ∧ (code = 0%Z ∨ code = 1%Z)
    ∧ (code = 0%Z ↔ success_count k = total_count k)
    ∧ (code = 1%Z ↔ success_count k < total_count k)
    ∧ files w2 = files w1
    ∧ (plain_table table = true →
       success_count k = matching_pairs table (files w)).
Proof.
  intros Ht.
  destruct (for_files_returns table (Counters 0 0)
              (print (u "Adding skip markers to converted Go integration tests..."
                        ++ [NL]) w) Ht)
    as (k & w1 & Hrun & H1 & H2 & H3).
  cbn [success_count total_count] in *.
  assert (plain_table table = true →
          success_count k = matching_pairs table (files w)) as Hplain.
  { intros Hp.
    destruct (for_files_plain table (Counters 0 0)
                (print (u "Adding skip markers to converted Go integration tests..."
                          ++ [NL]) w) Hp)
      as (w' & Hrun' & _). rewrite Hrun in Hrun'. by injection Hrun' as -> _. }
  unfold main_with. rewrite Hrun. cbn [mbind option_bind].
  destruct (Nat.eqb (success_count k) (total_count k)) eqn:E.
  - apply Nat.eqb_eq in E. exists k, w1, 0%Z. eexists.
    repeat split; try done; try lia; auto.
  - apply Nat.eqb_neq in E. exists k, w1, 1%Z. eexists.
    repeat split; try done; try lia; auto.
Qed.

Lemma main_exit_status_witness :
  ∃ k w1 code w2,
    for_files CONVERTED_TESTS (Counters 0 0)
      (print (u "Adding skip markers to converted Go integration tests..." ++ [NL])
         Samples.one_test_world)
    = Some (k, w1)
    ∧ main_with CONVERTED_TESTS Samples.one_test_world = Some (code, w2)
    ∧ total_count k = total_pairs CONVERTED_TESTS
    ∧ success_count k ≤ total_count k
    ∧ (code = 0%Z ∨ code = 1%Z)
    ∧ (code = 0%Z ↔ success_count k = total_count k)
    ∧ (code = 1%Z ↔ success_count k < total_count k)
    ∧ files w2 = files w1
    ∧ (plain_table CONVERTED_TESTS = true →
       success_count k = matching_pairs CONVERTED_TESTS (files Samples.one_test_world)).
Proof.
  apply (main_exit_status CONVERTED_TESTS Samples.one_test_world).
  vm_compute; reflexivity.
Defined.

(** C8.  A table of identifiers and plain labels with two files: the three
    signatures of the first are all in its file, the file of the second is
    missing.  The driver counts 3 successes in 5 attempts, prints the summary
    line [Summary: 3/5 tests marked] (after the empty line the script puts
    before it), then the line that 2 tests could not be marked, and ends with
    status 1. *)
Theorem two_files_three_of_five
    (w : world) (file_a file_b : str) (a1 a2 a3 b1 b2 : str * str) :
  plain_table [(file_a, [a1; a2; a3]); (file_b, [b1; b2])] = true →
  present (files w) file_a a1.1 = true →
  present (files w) file_a a2.1 = true →
  present (files w) file_a a3.1 = true →
  files w !! file_b = None →
  ∃ w1 w2,
    for_files [(file_a, [a1; a2; a3]); (file_b, [b1; b2])] (Counters 0 0)
      (print (u "Adding skip markers to converted Go integration tests..." ++ [NL]) w)
    = Some (Counters 3 5, w1)
    ∧ main_with [(file_a, [a1; a2; a3]); (file_b, [b1; b2])] w = Some (1%Z, w2)
    ∧ stdout w2
      = stdout w1 ++ [[NL] ++ u "Summary: 3/5 tests marked";
                      WARNING_SIGN ++ u "  2 tests could not be marked"].
Proof.
  intros Hp H1 H2 H3 Hb.
  destruct (for_files_plain _ (Counters 0 0)
              (print (u "Adding skip markers to converted Go integration tests..."
                        ++ [NL]) w) Hp)
    as (w1 & Hrun & Hs & _).
  destruct a1 as [n1 l1], a2 as [n2 l2], a3 as [n3 l3], b1 as [m1 k1], b2 as [m2 k2].
  cbn [fst matching_pairs matching_tests total_pairs length files print
         success_count total_count] in *.
  rewrite H1, H2, H3 in Hrun. unfold present in Hrun at 1 2. rewrite Hb in Hrun.
  cbn [Nat.add] in Hrun.
  exists w1. eexists. split; [exact Hrun|].
  unfold main_with. rewrite Hrun. cbn [mbind option_bind success_count total_count].
  split; [reflexivity|].
  cbn [stdout print]. rewrite <- app_assoc. reflexivity.
Qed.

Lemma two_files_three_of_five_witness :
  ∃ w1 w2,
    for_files
      [(Samples.jobs_test_go,
        [(u "TestPruneJobIntegration", u "test/tftest/jobs/prune_job.tftest.hcl");
         (u "TestSyncJobIntegration", u "test/tftest/jobs/sync_job.tftest.hcl");
         (u "TestVerifyJobIntegration", u "test/tftest/jobs/verify_job.tftest.hcl")]);
       (Samples.remotes_test_go,
        [(u "TestRemotesIntegration", u "test/tftest/remotes/remote.tftest.hcl");
         (u "TestRemoteImport", u "covered by HCL tests")])]
      (Counters 0 0)
      (print (u "Adding skip markers to converted Go integration tests..." ++ [NL])
         Samples.three_tests_world)
    = Some (Counters 3 5, w1)
    ∧ main_with
        [(Samples.jobs_test_go,
          [(u "TestPruneJobIntegration", u "test/tftest/jobs/prune_job.tftest.hcl");
           (u "TestSyncJobIntegration", u "test/tftest/jobs/sync_job.tftest.hcl");
           (u "TestVerifyJobIntegration", u "test/tftest/jobs/verify_job.tftest.hcl")]);
         (Samples.remotes_test_go,
          [(u "TestRemotesIntegration", u "test/tftest/remotes/remote.tftest.hcl");
           (u "TestRemoteImport", u "covered by HCL tests")])]
        Samples.three_tests_world
      = Some (1%Z, w2)
    ∧ stdout w2
      = stdout w1 ++ [[NL] ++ u "Summary: 3/5 tests marked";
                      WARNING_SIGN ++ u "  2 tests could not be marked"].
Proof.
  apply (two_files_three_of_five Samples.three_tests_world
           Samples.jobs_test_go Samples.remotes_test_go
           (u "TestPruneJobIntegration", u "test/tftest/jobs/prune_job.tftest.hcl")
           (u "TestSyncJobIntegration", u "test/tftest/jobs/sync_job.tftest.hcl")
           (u "TestVerifyJobIntegration", u "test/tftest/jobs/verify_job.tftest.hcl")
           (u "TestRemotesIntegration", u "test/tftest/remotes/remote.tftest.hcl")
           (u "TestRemoteImport", u "covered by HCL tests"));
    vm_compute; reflexivity.
Defined.

(** ** Running it again *)





(** * Further properties of the script *)

(** ** What one call leaves alone *)

Section Frame.

Implicit Types (w : world) (filepath test_name hcl_path : str).

(** The two ways a call returns. *)
Lemma add_skip_marker_inv w filepath test_name hcl_path ok w' :
  add_skip_marker filepath test_name hcl_path w = Some (ok, w') →
  (ok = false ∧ ∃ line, w' = print line w)
  ∨ (ok = true
     ∧ ∃ content m,
         files w !! filepath = Some content
         ∧ Re.search (pattern test_name) content = Some (Re.Match m)
         ∧ w' = write_text filepath
                  (splice content (Re.m_end m) (skip_line hcl_path)) w).
Proof.
  unfold add_skip_marker.
  destruct (files w !! filepath) as [content|] eqn:Hf.
  - destruct (Re.search (pattern test_name) content) as [[m|]|] eqn:Hs;
      cbn [mbind option_bind]; [| |done]; intros [= <- <-].
    + right. split; [done|]. by exists content, m.
    + left. eauto.
  - intros [= <- <-]. left. eauto.
Qed.

Lemma length_splice (s x : str) (e : nat) :
  length (splice s e x) = length s + length x.
Proof.
  unfold splice. rewrite !length_app, length_take, length_drop. lia.
Qed.

Lemma length_skip_line hcl_path : length (skip_line hcl_path) = 33 + length hcl_path.
Proof.
  unfold skip_line. rewrite !length_app. cbn [length u map list_ascii_of_string]. lia.
Qed.

End Frame.

(** X1.  Whatever a call returns, the file system has the same paths after it
    as before (no file is made, none is removed), every file other than the
    one named keeps its text, and what was printed before is still there,
    with the new output after it. *)
Theorem add_skip_marker_frame
    (w w' : world) (filepath test_name hcl_path : str) (ok : bool) :
  add_skip_marker filepath test_name hcl_path w = Some (ok, w') →
  dom (files w') = dom (files w)
  ∧ (∀ other, other ≠ filepath → files w' !! other = files w !! other)
  ∧ ∃ out, stdout w' = stdout w ++ out.
Proof.
  intros [[-> [line ->]] | [-> (content & m & Hf & _ & ->)]]%add_skip_marker_inv;
    cbn [files stdout print write_text].
  - split; [done|]. split; [done|]. eauto.
  - split; [by apply dom_insert_lookup_L|].
    split; [intros other Hne; by apply lookup_insert_ne|].
    exists []. by rewrite app_nil_r.
Qed.

Lemma add_skip_marker_frame_witness :
  dom (files (write_text Samples.jobs_test_go
                (splice Samples.one_test 65 (skip_line (u "label")))
                Samples.one_test_world))
  = dom (files Samples.one_test_world)
  ∧ (∀ other, other ≠ Samples.jobs_test_go →
       files (write_text Samples.jobs_test_go
                (splice Samples.one_test 65 (skip_line (u "label")))
                Samples.one_test_world) !! other
       = files Samples.one_test_world !! other)
  ∧ ∃ out,
      stdout (write_text Samples.jobs_test_go
                (splice Samples.one_test 65 (skip_line (u "label")))
                Samples.one_test_world)
      = stdout Samples.one_test_world ++ out.
Proof.
  apply (add_skip_marker_frame Samples.one_test_world _ Samples.jobs_test_go
           (u "TestPruneJobIntegration") (u "label") true).
  vm_compute. reflexivity.
Defined.

(** X2.  The value a call returns tells whether it wrote: [True] exactly when
    the file system is not what it was.  A call that returns [True] prints
    nothing and makes the file longer by the 33 characters around the label
    plus the label; a call that returns [False] changes no file and prints one
    line. *)
Theorem add_skip_marker_result_tells_write
    (w w' : world) (filepath test_name hcl_path : str) (ok : bool) :
  add_skip_marker filepath test_name hcl_path w = Some (ok, w') →
  (ok = true ↔ files w' ≠ files w)
  ∧ (ok = true →
     stdout w' = stdout w
     ∧ ∃ content content',
         files w !! filepath = Some content
         ∧ files w' !! filepath = Some content'
         ∧ length content' = length content + 33 + length hcl_path)
  ∧ (ok = false →
     files w' = files w ∧ ∃ line, stdout w' = stdout w ++ [line]).
Proof.
  intros [[-> [line ->]] | [-> (content & m & Hf & _ & ->)]]%add_skip_marker_inv;
    cbn [files stdout print write_text].
  - split; [split; [done | intros []; done]|].
    split; [done|]. intros _. split; [done|]. eauto.
  - assert (length (splice content (Re.m_end m) (skip_line hcl_path))
            = length content + 33 + length hcl_path) as Hlen
      by (rewrite length_splice, length_skip_line; lia).
    split; [split; [|done]|split; [|done]].
    + intros _ Heq.
      assert (<[filepath := splice content (Re.m_end m) (skip_line hcl_path)]>
                (files w) !! filepath = Some content) as Hl by (by rewrite Heq).
      rewrite lookup_insert_eq in Hl. injection Hl as Hl.
      rewrite Hl in Hlen. lia.
    + intros _. split; [done|].
      exists content, (splice content (Re.m_end m) (skip_line hcl_path)).
      split; [done|]. split; [apply lookup_insert_eq | done].
Qed.

Lemma add_skip_marker_result_tells_write_witness :
  let w' := write_text Samples.jobs_test_go
              (splice Samples.one_test 65 (skip_line (u "label")))
              Samples.one_test_world in
  (true = true ↔ files w' ≠ files Samples.one_test_world)
  ∧ (true = true →
     stdout w' = stdout Samples.one_test_world
     ∧ ∃ content content',
         files Samples.one_test_world !! Samples.jobs_test_go = Some content
         ∧ files w' !! Samples.jobs_test_go = Some content'
         ∧ length content' = length content + 33 + length (u "label"))
  ∧ (true = false →
     files w' = files Samples.one_test_world
     ∧ ∃ line, stdout w' = stdout Samples.one_test_world ++ [line]).
Proof.
  apply (add_skip_marker_result_tells_write Samples.one_test_world _
           Samples.jobs_test_go (u "TestPruneJobIntegration") (u "label") true).
  vm_compute. reflexivity.
Defined.

(** ** The text a match ends with *)

Section Tail.

Implicit Types (p : list Re.atom) (s a b q name : str).

Lemma parse_unfold (c : N) (rest : str) :
  Re.parse (c :: rest)
  = if Re.mem c (u "|)") then None
    else if N.eqb c BACKSLASH then
      match rest with
      | d :: rest' =>
          if Re.is_ascii_letter d || Re.is_digit d then None
          else cons (Re.Lit d) <$> Re.parse rest'
      | [] => None
      end
    else if negb (Re.mem c Re.SPECIAL_CHARS) then cons (Re.Lit c) <$> Re.parse rest
    else if N.eqb c DOT then cons Re.AnyButNewline <$> Re.parse rest
    else if N.eqb c LBRACE then
      if Re.brace_is_literal rest then cons (Re.Lit c) <$> Re.parse rest else None
    else None.
Proof. reflexivity. Qed.

Lemma fmap_cons_Some (x : Re.atom) (o : option (list Re.atom)) atoms :
  cons x <$> o = Some atoms → ∃ atoms', o = Some atoms' ∧ atoms = x :: atoms'.
Proof. destruct o; [|done]. intros [= <-]. eauto. Qed.

(** Whatever the name brings into the pattern, the atoms end with the
    literal characters of [(t *testing.T) {]. *)
Lemma parse_name_tail (n : nat) name atoms :
  length name ≤ n →
  Re.parse (name ++ u "\(t \*testing\.T\) {") = Some atoms →
  ∃ pre, atoms = pre ++ map Re.Lit (u "(t *testing.T) {")
         ∧ length pre ≤ length name.
Proof.
  revert name atoms. induction n as [|n IH]; intros name atoms Hlen.
  - destruct name; [|cbn in Hlen; lia]. intros [= <-]. by exists [].
  - destruct name as [|c rest]; [intros [= <-]; by exists []|].
    cbn [length] in Hlen. cbn [app]. rewrite parse_unfold.
    destruct (Re.mem c (u "|)")); [done|].
    destruct (N.eqb c BACKSLASH).
    { destruct rest as [|d rest']; [by vm_compute|]. cbn [app length] in *.
      destruct (Re.is_ascii_letter d || Re.is_digit d); [done|].
      intros (atoms' & Hp & ->)%fmap_cons_Some.
      apply IH in Hp as (pre & -> & Hpre); [|lia].
      exists (Re.Lit d :: pre). cbn [length]. split; [done | lia]. }
    destruct (negb (Re.mem c Re.SPECIAL_CHARS)).
    { intros (atoms' & Hp & ->)%fmap_cons_Some.
      apply IH in Hp as (pre & -> & Hpre); [|lia].
      exists (Re.Lit c :: pre). cbn [length]. split; [done | lia]. }
    destruct (N.eqb c DOT).
    { intros (atoms' & Hp & ->)%fmap_cons_Some.
      apply IH in Hp as (pre & -> & Hpre); [|lia].
      exists (Re.AnyButNewline :: pre). cbn [length]. split; [done | lia]. }
    destruct (N.eqb c LBRACE); [|done].
    destruct (Re.brace_is_literal (rest ++ u "\(t \*testing\.T\) {")); [|done].
    intros (atoms' & Hp & ->)%fmap_cons_Some.
    apply IH in Hp as (pre & -> & Hpre); [|lia].
    exists (Re.Lit c :: pre). cbn [length]. split; [done | lia].
Qed.

Lemma parse_pattern_shape name atoms :
  Re.parse (pattern name) = Some atoms →
  ∃ mid, atoms = map Re.Lit (u "func ") ++ mid ++ map Re.Lit (u "(t *testing.T) {")
         ∧ length mid ≤ length name.
Proof.
  unfold pattern. rewrite parse_app_inert by reflexivity.
  destruct (Re.parse (name ++ u "\(t \*testing\.T\) {")) as [atoms'|] eqn:Hp; [|done].
  intros [= <-].
  apply (parse_name_tail (length name)) in Hp as (pre & -> & Hpre); [|done].
  by exists pre.
Qed.

(** A match of two runs of atoms is a match of the first and then of the
    second. *)
Lemma match_here_app p1 p2 s :
  Re.match_here (p1 ++ p2) s = true →
  ∃ a b, s = a ++ b ∧ length a = length p1
         ∧ Re.match_here p1 a = true ∧ Re.match_here p2 b = true.
Proof.
  revert s; induction p1 as [|x p1 IH]; intros s; cbn [app].
  - intros H. exists [], s. by destruct s.
  - destruct s as [|c s]; [done|]. cbn [Re.match_here].
    intros [Hx (a & b & -> & Hl & Ha & Hb)%IH]%andb_true_iff.
    exists (c :: a), b. cbn [length Re.match_here]. rewrite Hx, Ha, Hl. done.
Qed.

Lemma match_here_lit_length q a :
  Re.match_here (map Re.Lit q) a = true → length a = length q → a = q.
Proof.
  rewrite match_here_lit. intros [b ->]%is_prefix_spec. rewrite length_app.
  intros Hl. destruct b; [by rewrite app_nil_r | cbn in Hl; lia].
Qed.

End Tail.

(** X3.  For a test name that keeps the pattern within literal characters,
    escaped punctuation, dots and braces that open no repetition (so a name
    without alternation, repetition, group, set or anchor): a call that
    succeeds has put its skip line right after a text of the file that starts
    with [func ], ends with [(t *testing.T) {] and has at most as many
    characters between the two as the name has; everything before and after
    is the old text. *)
Theorem skip_line_follows_parameter_list
    (w w' : world) (filepath test_name hcl_path : str) (atoms : list Re.atom) :
  Re.parse (pattern test_name) = Some atoms →
  add_skip_marker filepath test_name hcl_path w = Some (true, w') →
  ∃ content before mid after,
    files w !! filepath = Some content
    ∧ content = before ++ u "func " ++ mid ++ u "(t *testing.T) {" ++ after
    ∧ length mid ≤ length test_name
    ∧ files w'
      = <[filepath := before ++ u "func " ++ mid ++ u "(t *testing.T) {"
                        ++ skip_line hcl_path ++ after]> (files w).
Proof.
  intros Hp (content & m & Hf & Hs & ->)%add_skip_marker_true.
  unfold Re.search in Hs. rewrite Hp in Hs.
  cbn [mbind option_bind] in Hs.
  destruct (Re.search_from atoms content 0) as [i|] eqn:Hi; [|done].
  injection Hs as <-. cbn [Re.m_end files write_text].
  apply search_from_Some in Hi as (_ & Hlen & Hm).
  rewrite Nat.sub_0_r in Hlen, Hm.
  apply parse_pattern_shape in Hp as (mid_atoms & -> & Hmid).
  apply match_here_app in Hm as (f & rest & Hdrop & Hlf & Hmf & Hm).
  apply match_here_app in Hm as (mid & rest' & -> & Hlm & _ & Hm).
  apply match_here_lit_length in Hmf; [|by rewrite Hlf, !length_map].
  rewrite match_here_lit in Hm. apply is_prefix_spec in Hm as [after ->].
  subst f.
  assert (content = take i content ++ u "func " ++ mid ++ u "(t *testing.T) {" ++ after)
    as Hc by (by rewrite <- Hdrop, take_drop).
  exists content, (take i content), mid, after.
  split; [done|]. split; [done|]. split; [by rewrite Hlm|].
  f_equal.
  assert (i + length (map Re.Lit (u "func ") ++ mid_atoms
                        ++ map Re.Lit (u "(t *testing.T) {"))
          = length (take i content ++ u "func " ++ mid ++ u "(t *testing.T) {"))
    as ->.
  { rewrite !length_app, !length_map, length_take, Hlm.
    rewrite !length_app, !length_map in Hlen. lia. }
  rewrite (splice_at content _ after) by (rewrite Hc at 1; by rewrite <- !app_assoc).
  by rewrite <- !app_assoc.
Qed.

Lemma skip_line_follows_parameter_list_witness :
  ∃ content before mid after,
    files Samples.twice_world !! Samples.jobs_test_go = Some content
    ∧ content = before ++ u "func " ++ mid ++ u "(t *testing.T) {" ++ after
    ∧ length mid ≤ length (u "Test.up")
    ∧ files (write_text Samples.jobs_test_go
               (splice Samples.twice 28 (skip_line (u "merged"))) Samples.twice_world)
      = <[Samples.jobs_test_go := before ++ u "func " ++ mid ++ u "(t *testing.T) {"
                                    ++ skip_line (u "merged") ++ after]>
          (files Samples.twice_world).
Proof.
  apply (skip_line_follows_parameter_list Samples.twice_world _
           Samples.jobs_test_go (u "Test.up") (u "merged")
           (map Re.Lit (u "func Test") ++ Re.AnyButNewline
              :: map Re.Lit (u "up(t *testing.T) {")));
    vm_compute; reflexivity.
Defined.

(** ** What the driver leaves alone *)

Section DriverFrame.

Implicit Types (w : world) (k : counters) (filepath : str)
  (tests : list (str * str)) (table : list (str * list (str * str)))
  (I : gmap (list N) (list N) → Prop).

(** A property of the file system that every call of the loop keeps is kept
    by the loop. *)
Lemma for_tests_invariant I filepath tests k w k' w' :
  (∀ n l v ok v', (n, l) ∈ tests → I (files v) →
                  add_skip_marker filepath n l v = Some (ok, v') → I (files v')) →
  I (files w) → for_tests filepath tests k w = Some (k', w') → I (files w').
Proof.
  revert k w. induction tests as [|[n l] tests IH]; intros k w Hstep HI.
  - by intros [= _ <-].
  - cbn [for_tests].
    destruct (add_skip_marker filepath n l w) as [[ok w1]|] eqn:Hcall; [|done].
    cbn [mbind option_bind].
    assert (I (files w1)) as HI1 by (eapply Hstep; [left|done..]).
    assert (∀ n0 l0 v ok0 v', (n0, l0) ∈ tests → I (files v) →
              add_skip_marker filepath n0 l0 v = Some (ok0, v') → I (files v'))
      as Hstep' by (intros; eapply Hstep; [by right|done..]).
    destruct ok; by apply IH.
Qed.

Lemma for_files_invariant I table k w k' w' :
  (∀ p tests n l v ok v', (p, tests) ∈ table → (n, l) ∈ tests → I (files v) →
                          add_skip_marker p n l v = Some (ok, v') → I (files v')) →
  I (files w) → for_files table k w = Some (k', w') → I (files w').
Proof.
  revert k w. induction table as [|[p tests] table IH]; intros k w Hstep HI.
  - by intros [= _ <-].
  - cbn [for_files].
    destruct (for_tests p tests k (print (u "Processing " ++ p ++ u ":") w))
      as [[k1 w1]|] eqn:Hrun; [|done].
    cbn [mbind option_bind].
    apply (for_tests_invariant I) in Hrun; [| |done].
    + apply IH; [|done]. intros; eapply Hstep; [by right|done..].
    + intros; eapply Hstep; [left|done..].
Qed.

Lemma main_with_files table w code w' :
  main_with table w = Some (code, w') →
  ∃ k w1,
    for_files table (Counters 0 0)
      (print (u "Adding skip markers to converted Go integration tests..." ++ [NL]) w)
    = Some (k, w1)
    ∧ files w' = files w1.
Proof.
  unfold main_with.
  destruct (for_files table _ _) as [[k w1]|]; [|done].
  cbn [mbind option_bind]. destruct (Nat.eqb _ _); intros [= _ <-]; eauto.
Qed.

Lemma splice_sublist (s x : str) (e : nat) : s `sublist_of` splice s e x.
Proof.
  unfold splice. rewrite <- (take_drop e s) at 1.
  apply sublist_app; [done|]. by apply sublist_inserts_l.
Qed.

End DriverFrame.

(** X4.  A run of the driver makes no file and removes none, leaves every
    file that the table does not name as it was, and only ever adds to a
    file: the old text of each file is what is left of the new one when the
    added characters are taken out. *)
Theorem main_only_inserts
    (table : list (str * list (str * str))) (w w' : world) (code : Z) :
  main_with table w = Some (code, w') →
  dom (files w') = dom (files w)
  ∧ (∀ other, other ∉ table.*1 → files w' !! other = files w !! other)
  ∧ (∀ path old, files w !! path = Some old →
       ∃ new, files w' !! path = Some new ∧ old `sublist_of` new).
Proof.
  intros (k & w1 & Hrun & ->)%main_with_files.
  apply (for_files_invariant
           (λ fs, dom fs = dom (files w)
                  ∧ (∀ other, other ∉ table.*1 → fs !! other = files w !! other)
                  ∧ (∀ path old, files w !! path = Some old →
                       ∃ new, fs !! path = Some new ∧ old `sublist_of` new)))
    in Hrun; [done| |].
  - intros p tests n l v ok v' Hp Hn (Hdom & Hother & Hsub) Hcall.
    apply add_skip_marker_inv in Hcall
      as [[-> [line ->]] | [-> (content & m & Hf & _ & ->)]];
      cbn [files print write_text]; [done|].
    split; [|split].
    + rewrite <- Hdom. by apply dom_insert_lookup_L.
    + intros other Ho. rewrite lookup_insert_ne; [by apply Hother|].
      intros <-. apply Ho. apply list_elem_of_fmap. by exists (p, tests).
    + intros path old Hold. destruct (decide (p = path)) as [<-|Hne].
      * rewrite lookup_insert_eq. eexists. split; [done|].
        destruct (Hsub p old Hold) as (new & Hnew & Hs).
        rewrite Hf in Hnew. injection Hnew as <-.
        etrans; [exact Hs | apply splice_sublist].
      * rewrite lookup_insert_ne by done. by apply Hsub.
  - cbn [files print]. split; [done|]. split; [done|]. eauto.
Qed.

Lemma main_only_inserts_witness :
  ∃ code w',
    main_with CONVERTED_TESTS Samples.three_tests_world = Some (code, w')
    ∧ dom (files w') = dom (files Samples.three_tests_world)
    ∧ (∀ other, other ∉ CONVERTED_TESTS.*1 →
         files w' !! other = files Samples.three_tests_world !! other)
    ∧ (∀ path old, files Samples.three_tests_world !! path = Some old →
         ∃ new, files w' !! path = Some new ∧ old `sublist_of` new).
Proof.
  destruct (main_with CONVERTED_TESTS Samples.three_tests_world)
    as [[code w']|] eqn:Hmain; [|by vm_compute in Hmain].
  exists code, w'. split; [reflexivity|].
  exact (main_only_inserts CONVERTED_TESTS Samples.three_tests_world w' code Hmain).
Defined.

(** ** What the driver prints *)

Section DriverOutput.

Implicit Types (w : world) (k : counters) (filepath : str)
  (tests : list (str * str)) (table : list (str * list (str * str))).

Lemma newlines_app (a b : str) : newlines (a ++ b) = newlines a + newlines b.
Proof. induction a as [|c a IH]; [done|]. cbn [app newlines]. rewrite IH. lia. Qed.

Lemma newlines_free (s : str) : newline_free s = true → newlines s = 0.
Proof.
  induction s as [|c s IH]; [done|]. cbn [newline_free forallb newlines].
  intros [Hc Hs]%andb_true_iff. apply negb_true_iff in Hc. rewrite Hc.
  by rewrite IH.
Qed.

Lemma newlines_digits (d : Decimal.uint) :
  newlines (u (NilEmpty.string_of_uint d)) = 0.
Proof. induction d; [done | exact IHd..]. Qed.

Lemma newlines_str_of_nat (n : nat) : newlines (str_of_nat n) = 0.
Proof.
  unfold str_of_nat, NilZero.string_of_uint.
  destruct (Nat.to_uint n) eqn:E; [done | rewrite <- E; apply newlines_digits..].
Qed.

Lemma printed_lines_app (out : list str) (s : str) :
  printed_lines (out ++ [s]) = printed_lines out + S (newlines s).
Proof.
  induction out as [|x out IH]; cbn [app printed_lines]; [lia|]. rewrite IH. lia.
Qed.

(** The line a failed call prints. *)
Lemma add_skip_marker_false w filepath test_name hcl_path w' :
  add_skip_marker filepath test_name hcl_path w = Some (false, w') →
  w' = print (file_not_found filepath) w
  ∨ w' = print (function_not_found filepath test_name) w.
Proof.
  unfold add_skip_marker. destruct (files w !! filepath) as [content|].
  - destruct (Re.search (pattern test_name) content) as [[m|]|];
      cbn [mbind option_bind]; [done| |done]. intros [= <-]. by right.
  - intros [= <-]. by left.
Qed.

(** Two print calls for a pair that failed, one for a pair that succeeded;
    each is one line when the path and the names hold no newline. *)
Lemma for_tests_output filepath tests k w k' w' :
  for_tests filepath tests k w = Some (k', w') →
  (total_count k' = total_count k + length tests
   ∧ success_count k ≤ success_count k'
   ∧ success_count k' + total_count k ≤ success_count k + total_count k'
   ∧ length (stdout w') + success_count k' + 2 * total_count k
     = length (stdout w) + success_count k + 2 * total_count k')
  ∧ (newline_free filepath = true →
     forallb (λ '(test_name, _), newline_free test_name) tests = true →
     printed_lines (stdout w') + success_count k' + 2 * total_count k
     = printed_lines (stdout w) + success_count k + 2 * total_count k').
Proof.
  revert k w. induction tests as [|[n l] tests IH]; intros k w.
  - intros [= <- <-]. cbn [length]. split; [lia | intros; lia].
  - cbn [for_tests].
    destruct (add_skip_marker filepath n l w) as [[ok w1]|] eqn:Hcall; [|done].
    cbn [mbind option_bind]. destruct ok.
    + apply add_skip_marker_true in Hcall as (content & m & _ & _ & ->).
      intros [(H1 & H2 & H3 & H4) H5]%IH.
      cbn [length stdout print write_text success_count total_count] in *.
      rewrite ?length_app in H4. cbn [length] in H4.
      split; [lia|]. cbn [forallb]. intros Hp [Hn Ht]%andb_true_iff.
      specialize (H5 Hp Ht). rewrite printed_lines_app in H5.
      rewrite !newlines_app, (newlines_free n Hn) in H5.
      eval_newlines_in H5. lia.
    + intros [(H1 & H2 & H3 & H4) H5]%IH.
      assert (∃ line, w1 = print line w
                      ∧ (newline_free filepath = true → newline_free n = true →
                         newlines line = 0)) as (line & -> & Hline).
      { apply add_skip_marker_false in Hcall as [-> | ->]; eexists;
          (split; [reflexivity|]); intros Hp Hn;
          unfold file_not_found, function_not_found;
          rewrite !newlines_app, ?(newlines_free _ Hp), ?(newlines_free _ Hn);
          eval_newlines; reflexivity. }
      cbn [length stdout print write_text success_count total_count] in *.
      rewrite ?length_app in H4. cbn [length] in H4.
      split; [lia|]. cbn [forallb]. intros Hp [Hn Ht]%andb_true_iff.
      specialize (H5 Hp Ht). rewrite !printed_lines_app in H5.
      rewrite (Hline Hp Hn) in H5.
      rewrite !newlines_app, (newlines_free n Hn) in H5.
      eval_newlines_in H5. lia.
Qed.

Lemma for_files_output table k w k' w' :
  for_files table k w = Some (k', w') →
  (total_count k' = total_count k + total_pairs table
   ∧ success_count k ≤ success_count k'
   ∧ success_count k' + total_count k ≤ success_count k + total_count k'
   ∧ length (stdout w') + success_count k' + 2 * total_count k
     = length (stdout w) + success_count k + 2 * total_count k' + 2 * length table)
  ∧ (one_line_table table = true →
     printed_lines (stdout w') + success_count k' + 2 * total_count k
     = printed_lines (stdout w) + success_count k + 2 * total_count k'
       + 2 * length table).
Proof.
  revert k w. induction table as [|[p tests] table IH]; intros k w.
  - intros [= <- <-]. cbn [length total_pairs]. split; [lia | intros; lia].
  - cbn [for_files].
    destruct (for_tests p tests k (print (u "Processing " ++ p ++ u ":") w))
      as [[k1 w1]|] eqn:Hrun; [|done].
    cbn [mbind option_bind].
    apply for_tests_output in Hrun as [(A1 & A2 & A3 & A4) A5].
    intros [(H1 & H2 & H3 & H4) H5]%IH.
    cbn [length stdout print total_pairs] in *.
    rewrite ?length_app in *. cbn [length] in *.
    split; [lia|]. cbn [one_line_table forallb].
    intros [[Hp Ht]%andb_true_iff Htable]%andb_true_iff.
    specialize (A5 Hp Ht). specialize (H5 Htable).
    rewrite !printed_lines_app in *.
    rewrite !newlines_app, (newlines_free p Hp) in A5.
    eval_newlines_in A5. eval_newlines_in H5. lia.
Qed.

End DriverOutput.

(** X5.  A run of the driver calls [print] three times on its own account
    (the opening text, the summary, the closing text), twice for each file of
    the table (its heading and an empty line), once for the status of each
    pair, and once more, for the diagnostic, for each pair that failed; the
    number of failed pairs is at most the number of pairs, and it is zero
    exactly when the status is 0.  The opening text ends with a newline and
    the summary starts with one, so when no path and no name of the table
    holds a newline the run puts out five lines on its own account, two for
    each file, one for each pair and one more for each failed pair. *)
Theorem main_output_lines
    (table : list (str * list (str * str))) (w w' : world) (code : Z) :
  main_with table w = Some (code, w') →
  ∃ failed,
    failed ≤ total_pairs table
    ∧ (code = 0%Z ↔ failed = 0)
    ∧ (code = 1%Z ↔ 0 < failed)
    ∧ length (stdout w')
      = length (stdout w) + 3 + 2 * length table + total_pairs table + failed
    ∧ (one_line_table table = true →
       printed_lines (stdout w')
       = printed_lines (stdout w) + 5 + 2 * length table
         + total_pairs table + failed).
Proof.
  intros Hmain. unfold main_with in Hmain.
  destruct (for_files table _ _) as [[k w1]|] eqn:Hrun; [|done].
  cbn [mbind option_bind] in Hmain.
  apply for_files_output in Hrun as [(H1 & H2 & H3 & H4) H5].
  cbn [length stdout print success_count total_count] in *.
  rewrite ?length_app in H4. cbn [length] in H4.
  rewrite printed_lines_app in H5. eval_newlines_in H5.
  exists (total_count k - success_count k).
  destruct (Nat.eqb (success_count k) (total_count k)) eqn:E;
    [apply Nat.eqb_eq in E | apply Nat.eqb_neq in E];
    apply (inj Some), pair_equal_spec in Hmain as [<- <-];
    cbn [stdout print]; rewrite ?length_app; cbn [length];
    (split; [lia|]); (split; [split; intros; try done; lia|]);
    (split; [split; intros; try done; lia|]); (split; [lia|]);
    intros Ht; specialize (H5 Ht); rewrite !printed_lines_app;
    rewrite !newlines_app, !newlines_str_of_nat; eval_newlines; lia.
Qed.

Lemma main_output_lines_witness :
  ∃ code w' failed,
    main_with CONVERTED_TESTS Samples.three_tests_world = Some (code, w')
    ∧ failed ≤ total_pairs CONVERTED_TESTS
    ∧ (code = 0%Z ↔ failed = 0)
    ∧ (code = 1%Z ↔ 0 < failed)
    ∧ length (stdout w')
      = length (stdout Samples.three_tests_world) + 3
        + 2 * length CONVERTED_TESTS + total_pairs CONVERTED_TESTS + failed
    ∧ (one_line_table CONVERTED_TESTS = true →
       printed_lines (stdout w')
       = printed_lines (stdout Samples.three_tests_world) + 5
         + 2 * length CONVERTED_TESTS + total_pairs CONVERTED_TESTS + failed).
Proof.
  destruct (main_with CONVERTED_TESTS Samples.three_tests_world)
    as [[code w']|] eqn:Hmain; [|by vm_compute in Hmain].
  destruct (main_output_lines CONVERTED_TESTS Samples.three_tests_world w' code Hmain)
    as (failed & H).
  exists code, w', failed. split; [reflexivity | exact H].
Defined.

(** ** The status, read off the files before the run *)

Section Prediction.

Implicit Types (fs : gmap (list N) (list N)) (filepath : str)
  (tests : list (str * str)) (table : list (str * list (str * str))).

Lemma matching_tests_all fs filepath tests :
  matching_tests fs filepath tests ≤ length tests
  ∧ (matching_tests fs filepath tests = length tests
     ↔ ∀ n l, (n, l) ∈ tests → present fs filepath n = true).
Proof.
  induction tests as [|[n l] tests [IHle IH]]; cbn [matching_tests length].
  - split; [lia|]. split; [by intros _ ? ? ?%elem_of_nil | done].
  - destruct (present fs filepath n) eqn:E.
    + split; [lia|]. split.
      * intros Heq n0 l0 [[= -> ->] | Hin]%elem_of_cons; [done|].
        apply (proj1 IH) with l0; [lia | done].
      * intros Hall. f_equal. apply IH. intros n0 l0 Hin.
        apply Hall with l0. by right.
    + split; [lia|]. split; [lia|].
      intros Hall. rewrite (Hall n l) in E by left. done.
Qed.

Lemma matching_pairs_all table fs :
  matching_pairs table fs ≤ total_pairs table
  ∧ (matching_pairs table fs = total_pairs table
     ↔ ∀ p tests n l, (p, tests) ∈ table → (n, l) ∈ tests →
                      present fs p n = true).
Proof.
  induction table as [|[p tests] table [IHle IH]];
    cbn [matching_pairs total_pairs].
  - split; [lia|]. split; [by intros _ ? ? ? ? ?%elem_of_nil | done].
  - destruct (matching_tests_all fs p tests) as [Hle Hall]. split; [lia|]. split.
    + intros Heq p0 tests0 n l [[= -> ->] | Hin]%elem_of_cons Hn.
      * apply (proj1 Hall) with l; [lia | done].
      * apply (proj1 IH) with tests0 l; [lia | done..].
    + intros H. f_equal.
      * apply Hall. intros n l Hn. apply (H p tests n l); [left | done].
      * apply IH. intros p0 tests0 n l Hp Hn. apply (H p0 tests0 n l); [by right | done].
Qed.

End Prediction.

(** X6.  For a table of identifiers and plain labels the status of a run is
    decided by the files it starts from: the driver ends, with status 0 when
    every pair of the table finds its signature in its file, and with status
    1 when some pair does not (its file is missing, or holds no such
    signature). *)
Theorem main_status_from_files
    (table : list (str * list (str * str))) (w : world) :
  plain_table table = true →
  ∃ code w',
    main_with table w = Some (code, w')
    ∧ (code = 0%Z
       ↔ ∀ p tests n l, (p, tests) ∈ table → (n, l) ∈ tests →
                        present (files w) p n = true)
    ∧ (code = 1%Z
       ↔ ∃ p tests n l, (p, tests) ∈ table ∧ (n, l) ∈ tests
                        ∧ present (files w) p n = false).
Proof.
  intros Hp.
  destruct (for_files_plain table (Counters 0 0)
              (print (u "Adding skip markers to converted Go integration tests..."
                        ++ [NL]) w) Hp)
    as (w1 & Hrun & _).
  cbn [files print success_count total_count Nat.add] in Hrun.
  destruct (matching_pairs_all table (files w)) as [Hle Hall].
  unfold main_with. rewrite Hrun. cbn [mbind option_bind success_count total_count].
  destruct (Nat.eqb _ _) eqn:E; [apply Nat.eqb_eq in E | apply Nat.eqb_neq in E];
    eexists _, _; (split; [reflexivity|]).
  - split; [split; [intros _; by apply Hall | done]|].
    split; [done|]. intros (p & tests & n & l & Hin & Hn & Hno).
    rewrite (proj1 Hall E p tests n l Hin Hn) in Hno. done.
  - split; [split; [done | by intros ?%Hall]|].
    split; [intros _ | done].
    destruct (decide (Exists (λ '(p, tests),
                Exists (λ '(n, _), present (files w) p n = false) tests) table))
      as [Hex | Hnex].
    + apply Exists_exists in Hex as ([p tests] & Hin & Hex).
      apply Exists_exists in Hex as ([n l] & Hn & Hno). by exists p, tests, n, l.
    + exfalso. apply E, Hall. intros p tests n l Hin Hn.
      destruct (present (files w) p n) eqn:Epr; [done|]. exfalso. apply Hnex.
      apply Exists_exists. exists (p, tests). split; [done|].
      apply Exists_exists. by exists (n, l).
Qed.

Lemma main_status_from_files_witness :
  ∃ code w',
    main_with CONVERTED_TESTS Samples.three_tests_world = Some (code, w')
    ∧ (code = 0%Z
       ↔ ∀ p tests n l, (p, tests) ∈ CONVERTED_TESTS → (n, l) ∈ tests →
                        present (files Samples.three_tests_world) p n = true)
    ∧ (code = 1%Z
       ↔ ∃ p tests n l, (p, tests) ∈ CONVERTED_TESTS ∧ (n, l) ∈ tests
                        ∧ present (files Samples.three_tests_world) p n = false).
Proof.
  apply (main_status_from_files CONVERTED_TESTS Samples.three_tests_world).
  vm_compute. reflexivity.
Defined.

(** ** The marker of a pair, after the whole run *)

Section Cuts.

Implicit Types (l r a b x y : str) (c : N).

(** A text is cut in one way only at the first place of a character. *)
Lemma first_cut_unique l1 r1 l2 r2 c :
  l1 ++ c :: r1 = l2 ++ c :: r2 → c ∉ l1 → c ∉ l2 → l1 = l2 ∧ r1 = r2.
Proof.
  revert l2; induction l1 as [|x l1 IH]; intros [|z l2]; cbn [app].
  - by intros [= ->].
  - intros [= <- _] _ Hc. exfalso. apply Hc. left.
  - intros [= -> _] Hc. exfalso. apply Hc. left.
  - intros [= -> E] [_ H1]%not_elem_of_cons [_ H2]%not_elem_of_cons.
    destruct (IH l2 E H1 H2) as [-> ->]. done.
Qed.

(** And in one way only at the last place. *)
Lemma last_cut_unique l1 r1 l2 r2 c :
  l1 ++ c :: r1 = l2 ++ c :: r2 → c ∉ r1 → c ∉ r2 → l1 = l2 ∧ r1 = r2.
Proof.
  intros E H1 H2. apply (f_equal reverse) in E.
  rewrite !reverse_app, !reverse_cons, <- !app_assoc in E. cbn [app] in E.
  apply first_cut_unique in E as [E1 E2]; [|by rewrite elem_of_reverse..].
  apply (inj reverse) in E1, E2. done.
Qed.

(** The one place of a character that a text holds once. *)
Lemma lookup_once l r c j :
  (l ++ c :: r) !! j = Some c → c ∉ l → c ∉ r → j = length l.
Proof.
  intros Hj Hl Hr. destruct (decide (j < length l)) as [Hlt|Hge].
  - rewrite lookup_app_l in Hj by done. apply list_elem_of_lookup_2 in Hj. done.
  - rewrite lookup_app_r in Hj by lia.
    destruct (j - length l) as [|k] eqn:E; [lia|].
    cbn in Hj. apply list_elem_of_lookup_2 in Hj. done.
Qed.

Lemma ident_char_not_space c : ident_char c = true → c ≠ 32%N.
Proof.
  unfold ident_char, Re.is_ascii_letter, Re.is_digit.
  rewrite !orb_true_iff, !andb_true_iff, !N.leb_le, !N.eqb_eq. lia.
Qed.

(** Two signatures of identifiers that end at the same place of a text are
    the signature of one name. *)
Lemma signatures_same_end a a' name name' :
  is_identifier name = true → is_identifier name' = true →
  a ++ signature name = a' ++ signature name' → name = name'.
Proof.
  intros Hn Hn'. unfold signature.
  change (u "func ") with (u "func" ++ [32%N]).
  rewrite <- !app_assoc. cbn [app].
  rewrite !(app_assoc a), !(app_assoc a').
  change (32%N :: ?n ++ ?t) with ((32%N :: n) ++ t).
  rewrite !(app_assoc _ (32%N :: _) _).
  intros E. apply app_inj_2 in E as [E _]; [|done].
  rewrite <- !app_assoc in E. rewrite !(app_assoc a), !(app_assoc a') in E.
  apply last_cut_unique in E as [_ E]; [done|..]; intros Hc.
  - by apply (is_identifier_elem _ _ Hn), ident_char_not_space in Hc.
  - by apply (is_identifier_elem _ _ Hn'), ident_char_not_space in Hc.
Qed.

Lemma skip_line_no_brace label : plain_label label = true → LBRACE ∉ skip_line label.
Proof.
  intros Hl. rewrite skip_line_marker_line, !not_elem_of_app.
  split; [not_in_literal|]. split; [by apply marker_line_no_brace | not_in_literal].
Qed.

(** A text put in right after another signature does not come between a
    signature and the skip line that follows it. *)
Lemma contains_after_insertion content a b a' b' name name' label y :
  is_identifier name = true → is_identifier name' = true →
  plain_label label = true → name' ≠ name →
  content = a ++ (signature name ++ skip_line label) ++ b →
  content = a' ++ signature name' ++ b' →
  contains (signature name ++ skip_line label)
    (splice content (length a' + length (signature name')) y).
Proof.
  intros Hn Hn' Hl Hne Hc Hc'.
  set (X := signature name ++ skip_line label) in *.
  set (e := length a' + length (signature name')).
  destruct (decide (e ≤ length a)) as [Hle|Hgt].
  { exists (take e a ++ y ++ drop e a), b. unfold splice. rewrite Hc.
    rewrite take_app_le, drop_app_le by done. by rewrite <- !app_assoc. }
  destruct (decide (length a + length X ≤ e)) as [Hge|Hlt].
  { exists a, (take (e - length (a ++ X)) b ++ y ++ drop (e - length (a ++ X)) b).
    unfold splice. rewrite Hc, (app_assoc a X b).
    rewrite take_app_ge, drop_app_ge by (rewrite length_app; lia).
    by rewrite <- !app_assoc. }
  exfalso. apply Hne.
  assert (content !! (e - 1) = Some LBRACE) as Hb.
  { assert (content = (a' ++ u "func " ++ name' ++ u "(t *testing.T) ")
                        ++ LBRACE :: b') as ->
      by (rewrite Hc', signature_split; by rewrite <- !app_assoc).
    apply list_lookup_middle. subst e.
    rewrite signature_split, !length_app. cbn [length]. lia. }
  assert (e - 1 - length a = length (u "func " ++ name ++ u "(t *testing.T) ")) as Hj.
  { rewrite Hc in Hb. rewrite lookup_app_r in Hb by lia.
    rewrite lookup_app_l in Hb by lia.
    assert (X = (u "func " ++ name ++ u "(t *testing.T) ")
                  ++ LBRACE :: skip_line label) as HX
      by (unfold X; rewrite signature_split; by rewrite <- !app_assoc).
    rewrite HX in Hb.
    apply (lookup_once (u "func " ++ name ++ u "(t *testing.T) ")
             (skip_line label) LBRACE) in Hb;
      [done | by apply signature_body_no_brace | by apply skip_line_no_brace]. }
  apply (signatures_same_end a' a); [done..|].
  assert (length (a' ++ signature name') = length (a ++ signature name)) as Hlen.
  { rewrite !length_app. fold e. rewrite (signature_split name), length_app.
    cbn [length]. lia. }
  assert (take (length (a' ++ signature name')) content = a' ++ signature name') as H1.
  { rewrite Hc', (app_assoc a'). by rewrite take_app_length. }
  assert (take (length (a ++ signature name)) content = a ++ signature name) as H2.
  { rewrite Hc. unfold X. rewrite <- !app_assoc, (app_assoc a).
    by rewrite take_app_length. }
  by rewrite <- H1, <- H2, Hlen.
Qed.

End Cuts.

Section AfterRun.

Implicit Types (w v : world) (k : counters) (p filepath : str)
  (tests : list (str * str)) (table : list (str * list (str * str)))
  (fs : gmap (list N) (list N)).

Lemma for_tests_app filepath t1 t2 k w :
  for_tests filepath (t1 ++ t2) k w
  = '(k1, w1) ← for_tests filepath t1 k w; for_tests filepath t2 k1 w1.
Proof.
  revert k w. induction t1 as [|[n l] t1 IH]; intros k w; [done|].
  cbn [app for_tests].
  destruct (add_skip_marker filepath n l w) as [[[] w1]|]; cbn [mbind option_bind];
    [apply IH | apply IH | done].
Qed.

Lemma for_files_app T1 T2 k w :
  for_files (T1 ++ T2) k w
  = '(k1, w1) ← for_files T1 k w; for_files T2 k1 w1.
Proof.
  revert k w. induction T1 as [|[p tests] T1 IH]; intros k w; [done|].
  cbn [app for_files].
  destruct (for_tests p tests k _) as [[k1 w1]|]; cbn [mbind option_bind];
    [apply IH | done].
Qed.

Lemma plain_tests_elem tests n l :
  forallb (λ '(test_name, hcl_path),
             is_identifier test_name && plain_label hcl_path) tests = true →
  (n, l) ∈ tests → is_identifier n = true ∧ plain_label l = true.
Proof.
  rewrite forallb_forall. intros H Hin%list_elem_of_In.
  apply H in Hin. by apply andb_true_iff in Hin.
Qed.

Lemma plain_table_elem table p tests n l :
  plain_table table = true → (p, tests) ∈ table → (n, l) ∈ tests →
  is_identifier n = true ∧ plain_label l = true.
Proof.
  unfold plain_table. rewrite forallb_forall. intros H Hin%list_elem_of_In.
  apply H in Hin. by apply plain_tests_elem.
Qed.

Lemma plain_table_app T1 T2 :
  plain_table (T1 ++ T2) = plain_table T1 && plain_table T2.
Proof. apply forallb_app. Qed.

Lemma pairs_of_app T1 T2 : pairs_of (T1 ++ T2) = pairs_of T1 ++ pairs_of T2.
Proof.
  induction T1 as [|[p tests] T1 IH]; [done|].
  cbn [app pairs_of]. by rewrite IH, <- app_assoc.
Qed.

Lemma elem_of_pairs_of table p tests n l :
  (p, tests) ∈ table → (n, l) ∈ tests → (p, n) ∈ pairs_of table.
Proof.
  intros Hp Hn. induction table as [|[p' tests'] table IH];
    [by apply elem_of_nil in Hp|].
  cbn [pairs_of]. apply elem_of_app.
  apply elem_of_cons in Hp as [[= <- <-] | Hp]; [left | right; by apply IH].
  apply list_elem_of_In, in_map_iff. exists (n, l).
  split; [done | by apply list_elem_of_In].
Qed.

(** A call for another file or another name keeps it there. *)
Lemma add_skip_marker_keeps_marked v v' p name label p' name' label' ok :
  is_identifier name = true → plain_label label = true →
  is_identifier name' = true →
  (p', name') ≠ (p, name) →
  marked (files v) p name label →
  add_skip_marker p' name' label' v = Some (ok, v') →
  marked (files v') p name label.
Proof.
  intros Hn Hl Hn' Hne (content & Hf & a & b & Hc) Hcall.
  apply add_skip_marker_inv in Hcall
    as [[-> [line ->]] | [-> (content' & m & Hf' & Hs & ->)]];
    cbn [files print write_text];
    [exists content; split; [done | by exists a, b]|].
  destruct (decide (p' = p)) as [->|Hp];
    [|exists content; rewrite lookup_insert_ne by done;
      split; [done | by exists a, b]].
  rewrite Hf in Hf'. injection Hf' as <-.
  rewrite search_inert in Hs by by apply is_identifier_inert.
  destruct (head (occurrences (signature name') content)) as [i|] eqn:Hh; [|done].
  injection Hs as <-. cbn [Re.m_end].
  apply head_occurrences_Some in Hh as (a' & b' & Hc' & ->).
  eexists. split; [apply lookup_insert_eq|].
  apply (contains_after_insertion content a b a' b'); try done.
  intros ->. done.
Qed.

(** The call for the pair puts it there. *)
Lemma add_skip_marker_marks v p name label :
  is_identifier name = true →
  present (files v) p name = true →
  ∃ v', add_skip_marker p name label v = Some (true, v')
        ∧ marked (files v') p name label.
Proof.
  intros Hn Hp. unfold present in Hp.
  destruct (files v !! p) as [content|] eqn:Hf; [|done].
  apply Nat.ltb_lt, contains_count in Hp.
  rewrite (add_skip_marker_inert _ _ _ _ content) by auto using is_identifier_inert.
  destruct (head (occurrences (signature name) content)) as [i|] eqn:Hh;
    [|by apply head_occurrences_None in Hh].
  apply head_occurrences_Some in Hh as (a & b & Hc & ->).
  eexists. split; [reflexivity|]. cbn [files write_text].
  eexists. split; [apply lookup_insert_eq|].
  exists a, b. rewrite <- length_app.
  rewrite (splice_at _ (a ++ signature name) b) by (by rewrite <- app_assoc).
  by rewrite <- !app_assoc.
Qed.

End AfterRun.

(** The pair of a run, and the pairs after it. *)
Lemma run_marks_present_pair
    (table : list (str * list (str * str))) (w : world)
    (filepath : str) (tests : list (str * str)) (test_name hcl_path : str) :
  plain_table table = true →
  NoDup (pairs_of table) →
  (filepath, tests) ∈ table →
  (test_name, hcl_path) ∈ tests →
  present (files w) filepath test_name = true →
  ∃ code w',
    main_with table w = Some (code, w')
    ∧ marked (files w') filepath test_name hcl_path.
Proof.
  intros Hplain Hnd Hp Hn Hpres.
  destruct (plain_table_elem _ _ _ _ _ Hplain Hp Hn) as [Hid Hlab].
  apply list_elem_of_split in Hp as (T1 & T2 & ->).
  apply list_elem_of_split in Hn as (t1 & t2 & ->).
  (* no later pair is this pair *)
  rewrite pairs_of_app in Hnd. cbn [pairs_of] in Hnd.
  rewrite map_app in Hnd. cbn [map] in Hnd.
  rewrite <- !app_assoc in Hnd. cbn [app] in Hnd.
  apply NoDup_app in Hnd as (_ & _ & Hnd).
  apply NoDup_app in Hnd as (_ & _ & Hnd).
  apply NoDup_cons in Hnd as [Hnd _].
  apply not_elem_of_app in Hnd as [Hnd2 HndT].
  (* the parts of the table are plain *)
  rewrite plain_table_app in Hplain. apply andb_true_iff in Hplain as [HpT1 Hrest].
  cbn [plain_table forallb] in Hrest. apply andb_true_iff in Hrest as [Hrow HpT2].
  rewrite forallb_app in Hrow. apply andb_true_iff in Hrow as [Ht1 Hrow].
  cbn [forallb] in Hrow. apply andb_true_iff in Hrow as [_ Ht2].
  unfold main_with. rewrite for_files_app.
  match goal with
  | |- context [for_files T1 ?k ?v] =>
      destruct (for_files_plain T1 k v HpT1) as (w1 & Hr1 & Hs1 & _)
  end.
  rewrite Hr1. cbn [mbind option_bind for_files files print] in *.
  rewrite for_tests_app.
  match goal with
  | |- context [for_tests filepath t1 ?k ?v] =>
      destruct (for_tests_plain filepath t1 k v Ht1) as (w2 & Hr2 & Hs2 & _)
  end.
  rewrite Hr2. cbn [mbind option_bind for_tests files print] in *.
  assert (present (files w2) filepath test_name = true) as Hpres2
    by (by rewrite Hs2, Hs1).
  destruct (add_skip_marker_marks w2 filepath test_name hcl_path Hid Hpres2)
    as (w3 & Hcall & Hmark).
  rewrite Hcall. cbn [mbind option_bind].
  match goal with
  | |- context [for_tests filepath t2 ?k ?v] =>
      destruct (for_tests_plain filepath t2 k v Ht2) as (w4 & Hr4 & _)
  end.
  rewrite Hr4. cbn [mbind option_bind].
  assert (marked (files w4) filepath test_name hcl_path) as Hmark4.
  { eapply (for_tests_invariant
              (λ fs, marked fs filepath test_name hcl_path)); [| |exact Hr4];
      [|exact Hmark].
    intros n' l' v ok v' Hin HI Hc.
    destruct (plain_tests_elem _ _ _ Ht2 Hin) as [Hid' _].
    eapply add_skip_marker_keeps_marked; [exact Hid | exact Hlab | exact Hid'
                                         | | exact HI | exact Hc].
    intros [= ->]. apply Hnd2, list_elem_of_In, in_map_iff.
    exists (test_name, l'). split; [done | by apply list_elem_of_In]. }
  match goal with
  | |- context [for_files T2 ?k ?v] =>
      destruct (for_files_plain T2 k v HpT2) as (w5 & Hr5 & _)
  end.
  rewrite Hr5. cbn [mbind option_bind].
  assert (marked (files w5) filepath test_name hcl_path) as Hmark5.
  { eapply (for_files_invariant
              (λ fs, marked fs filepath test_name hcl_path)); [| |exact Hr5];
      [|exact Hmark4].
    intros p' tests' n' l' v ok v' Hin Hin' HI Hc.
    destruct (plain_table_elem _ _ _ _ _ HpT2 Hin Hin') as [Hid' _].
    eapply add_skip_marker_keeps_marked; [exact Hid | exact Hlab | exact Hid'
                                         | | exact HI | exact Hc].
    intros [= -> ->]. by eapply HndT, elem_of_pairs_of. }
  destruct (Nat.eqb _ _); eexists _, _; (split; [reflexivity|]); exact Hmark5.
Qed.



(** X8.  The script itself, on any files: its table holds identifiers and
    plain labels only and names no (file, test) pair twice, so every test of
    the table whose signature is in its file when [main] starts has, when
    [main] ends, the skip line with its own label right after its signature. *)
Theorem main_marks_every_present_test
    (w : world) (filepath : str) (tests : list (str * str))
    (test_name hcl_path : str) :
  (filepath, tests) ∈ CONVERTED_TESTS →
  (test_name, hcl_path) ∈ tests →
  present (files w) filepath test_name = true →
  ∃ code w', main w = Some (code, w')
             ∧ marked (files w') filepath test_name hcl_path.
Proof.
  apply run_marks_present_pair; [vm_compute; reflexivity|].
  apply (bool_decide_unpack _). vm_compute. reflexivity.
Qed.

Lemma main_marks_every_present_test_witness :
  ∃ code w',
    main Samples.three_tests_world = Some (code, w')
    ∧ marked (files w') Samples.jobs_test_go (u "TestVerifyJobIntegration")
        (u "test/tftest/jobs/verify_job.tftest.hcl").
Proof.
  apply (main_marks_every_present_test Samples.three_tests_world
           Samples.jobs_test_go
           [(u "TestPruneJobIntegration", u "test/tftest/jobs/prune_job.tftest.hcl");
            (u "TestPruneJobWithFilters", u "test/tftest/jobs/prune_job.tftest.hcl (merged)");
            (u "TestSyncJobIntegration", u "test/tftest/jobs/sync_job.tftest.hcl");
            (u "TestSyncJobWithGroupFilter", u "test/tftest/jobs/sync_job.tftest.hcl (merged)");
            (u "TestVerifyJobIntegration", u "test/tftest/jobs/verify_job.tftest.hcl")]).
  - left.
  - do 4 right. left.
  - vm_compute. reflexivity.
Defined.
